(** * network_of_stickers: coordinate parsing, reconciliation and aggregation

    A shallow embedding of the data-cleaning core of [network.py] and
    [syntax/visual.py], and the properties of it that the specification
    states.

    Conventions of the model.
    - A Python [str] is a [string] whose characters are code points below
      256; in that range the only decimal digits are ['0'..'9'].
    - A spreadsheet cell is a [cell]: a string, an integer, or the missing
      value NaN that pandas puts in an empty cell.
    - A Python [float] is a binary64 number, a [spec_float] with precision
      53 and maximal exponent 1024, rounded to nearest-even.
    - A Python [dict] is an association list in insertion order.
    - Code that can raise returns a [res]; [try]/[except] is a match on it.
    - Library calls whose result the program does not fix (the order of
      equal keys under pandas' default sort, whether an optional package
      imports, whether a chart can be written) are arguments of the
      functions that make them. *)

From Stdlib Require Import Bool Arith ZArith List String Ascii Lia.
From Stdlib Require Import Permutation Sorted.
From Stdlib Require Import Floats.SpecFloat.
Import ListNotations.

Local Open Scope string_scope.
Local Open Scope list_scope.
Local Open Scope nat_scope.

(** ** Exceptions *)

Inductive exn : Type :=
| ValueError
| TypeError
| ZeroDivisionError
| ImportError
| OSError.

Inductive res (A : Type) : Type :=
| Ok (a : A)
| Raise (e : exn).
Arguments Ok {A} a.
Arguments Raise {A} e.

Definition bind {A B : Type} (m : res A) (k : A -> res B) : res B :=
  match m with
  | Ok a => k a
  | Raise e => Raise e
  end.

Declare Scope res_scope.
Delimit Scope res_scope with res.
Notation "x <- m ;; k" := (bind m (fun x => k))
  (at level 61, m at next level, right associativity) : res_scope.
Local Open Scope res_scope.

(** ** Strings *)

Module Str.

Definition code (a : ascii) : nat := nat_of_ascii a.

(** [str.isspace] on the code points below 256. *)
Definition is_space (a : ascii) : bool :=
  let n := code a in
  ((9 <=? n) && (n <=? 13)) || ((28 <=? n) && (n <=? 32))
  || (n =? 133) || (n =? 160).

Fixpoint lstrip (s : string) : string :=
  match s with
  | String a t => if is_space a then lstrip t else s
  | EmptyString => EmptyString
  end.

(** Right strip: a character goes when it is a space and everything after
    it went too. *)
Fixpoint rstrip (s : string) : string :=
  match s with
  | EmptyString => EmptyString
  | String a t =>
      match rstrip t with
      | EmptyString => if is_space a then EmptyString else String a EmptyString
      | t' => String a t'
      end
  end.

(** [s.strip()] *)
Definition strip (s : string) : string := rstrip (lstrip s).

(** [c in s] for a one-character [c]. *)
Fixpoint contains (c : ascii) (s : string) : bool :=
  match s with
  | EmptyString => false
  | String a t => Ascii.eqb a c || contains c t
  end.

(** [s.split(c)]: the pieces between the occurrences of [c]; never
    empty. *)
Fixpoint split (c : ascii) (s : string) : list string :=
  match s with
  | EmptyString => [EmptyString]
  | String a t =>
      if Ascii.eqb a c then EmptyString :: split c t
      else match split c t with
           | p :: ps => String a p :: ps
           | [] => [String a EmptyString]
           end
  end.

Definition lower (a : ascii) : ascii :=
  let n := code a in
  if (65 <=? n) && (n <=? 90) then ascii_of_nat (n + 32) else a.

Definition is_digit (a : ascii) : bool :=
  let n := code a in (48 <=? n) && (n <=? 57).

Definition digit_val (a : ascii) : Z := Z.of_nat (code a - 48).

(** Decimal text of a natural number and of an integer, as [str(n)]. *)
Fixpoint nat_digits (fuel n : nat) (acc : string) : string :=
  match fuel with
  | O => acc
  | S fuel' =>
      let acc' := String (ascii_of_nat (48 + n mod 10)) acc in
      if n / 10 =? 0 then acc' else nat_digits fuel' (n / 10) acc'
  end.

Definition of_nat (n : nat) : string := nat_digits (S n) n EmptyString.

Definition of_Z (z : Z) : string :=
  match z with
  | Zneg p => String "-"%char (of_nat (Pos.to_nat p))
  | _ => of_nat (Z.to_nat z)
  end.

End Str.

(** ** Floats *)

Module Float.

Definition float := spec_float.

Definition prec : Z := 53.
Definition emax : Z := 1024.

Definition add : float -> float -> float := SFadd prec emax.
Definition div : float -> float -> float := SFdiv prec emax.

Definition inf : float := S754_infinity false.
Definition nan : float := S754_nan.

(** [math.isfinite] *)
Definition is_finite (f : float) : bool :=
  match f with
  | S754_zero _ | S754_finite _ _ _ => true
  | S754_infinity _ | S754_nan => false
  end.

(** The binary64 number nearest to [(-1)^s * m * 10^e], ties to even;
    what [strtod] returns for a decimal literal, overflow giving an
    infinity and underflow a zero or a subnormal. *)
Definition of_decimal (s : bool) (m : N) (e : Z) : float :=
  match m with
  | N0 => S754_zero s
  | Npos p =>
      let num := (p * Z.to_pos (10 ^ Z.max e 0))%positive in
      let den := Z.to_pos (10 ^ Z.max (- e) 0) in
      div (S754_finite s num 0) (S754_finite false den 0)
  end.

(** [float(n)] for an integer within the binary64 range. *)
Definition of_Z (z : Z) : float := binary_normalize prec emax z 0 false.

(** *** The text accepted by [float()] *)

(** The characters [float()] itself drops at both ends. *)
Definition is_float_space (a : ascii) : bool :=
  let n := Str.code a in
  ((9 <=? n) && (n <=? 13)) || (n =? 32) || (n =? 133) || (n =? 160).

Fixpoint drop_spaces (cs : list ascii) : list ascii :=
  match cs with
  | a :: t => if is_float_space a then drop_spaces t else cs
  | [] => []
  end.

Definition trim (cs : list ascii) : list ascii :=
  rev (drop_spaces (rev (drop_spaces cs))).

(** Underscores may only stand between two digits; they are removed
    before the number is read. [prev] is the character before [cs]. *)
Fixpoint no_underscores (prev : option ascii) (cs : list ascii)
  : option (list ascii) :=
  let prev_digit :=
    match prev with Some p => Str.is_digit p | None => false end in
  let prev_under :=
    match prev with Some p => Ascii.eqb p "_" | None => false end in
  match cs with
  | [] => if prev_under then None else Some []
  | a :: t =>
      if Ascii.eqb a "_" then
        if prev_digit then no_underscores (Some a) t else None
      else if prev_under && negb (Str.is_digit a) then None
      else option_map (cons a) (no_underscores (Some a) t)
  end.

(** An optional sign; [true] is minus. *)
Definition take_sign (cs : list ascii) : bool * list ascii :=
  match cs with
  | a :: t =>
      if Ascii.eqb a "-" then (true, t)
      else if Ascii.eqb a "+" then (false, t)
      else (false, cs)
  | [] => (false, [])
  end.

(** The longest prefix of digits, and the rest. *)
Fixpoint take_digits (cs : list ascii) : list ascii * list ascii :=
  match cs with
  | a :: t =>
      if Str.is_digit a then
        let '(ds, r) := take_digits t in (a :: ds, r)
      else ([], cs)
  | [] => ([], [])
  end.

Definition digits_value (ds : list ascii) : Z :=
  fold_left (fun acc d => (10 * acc + Str.digit_val d)%Z) ds 0%Z.

Definition lower_text (cs : list ascii) : string :=
  string_of_list_ascii (map Str.lower cs).

(** [inf], [infinity] and [nan], in any case, after an optional sign. *)
Definition parse_inf_or_nan (cs : list ascii) : option float :=
  let '(neg, r) := take_sign cs in
  let w := lower_text r in
  if String.eqb w "inf" || String.eqb w "infinity" then Some (S754_infinity neg)
  else if String.eqb w "nan" then Some S754_nan
  else None.

(** The exponent part: nothing, or [e]/[E], an optional sign and at
    least one digit, up to the end of the text. *)
Definition parse_exponent (cs : list ascii) : option Z :=
  match cs with
  | [] => Some 0%Z
  | a :: t =>
      if Ascii.eqb (Str.lower a) "e" then
        let '(neg, r) := take_sign t in
        match take_digits r with
        | ((_ :: _) as ds, []) =>
            Some (if neg then (- digits_value ds)%Z else digits_value ds)
        | _ => None
        end
      else None
  end.

(** A decimal number: sign, digits, an optional point and more digits
    (one digit at least in all), an optional exponent. *)
Definition parse_decimal (cs : list ascii) : option float :=
  let '(neg, r0) := take_sign cs in
  let '(ip, r1) := take_digits r0 in
  let '(fp, r2) :=
    match r1 with
    | a :: t => if Ascii.eqb a "." then take_digits t else ([], r1)
    | [] => ([], [])
    end in
  match ip ++ fp with
  | [] => None
  | ds =>
      match parse_exponent r2 with
      | Some e =>
          Some (of_decimal neg (Z.to_N (digits_value ds))
                  (e - Z.of_nat (List.length fp)))
      | None => None
      end
  end.

(** [float(s)] for a string [s]: the number, or [ValueError]. *)
Definition py_float (s : string) : res float :=
  match no_underscores None (trim (list_ascii_of_string s)) with
  | None => Raise ValueError
  | Some cs =>
      match parse_inf_or_nan cs with
      | Some f => Ok f
      | None =>
          match parse_decimal cs with
          | Some f => Ok f
          | None => Raise ValueError
          end
      end
  end.

End Float.

Export Float(float).

(** ** Cells *)

Inductive cell : Type :=
| CNaN
| CStr (s : string)
| CInt (z : Z).

(** [pd.notna(c)] *)
Definition notna (c : cell) : bool :=
  match c with CNaN => false | _ => true end.

(** [a == b]; NaN equals nothing, itself included. *)
Definition cell_eqb (a b : cell) : bool :=
  match a, b with
  | CStr s, CStr t => String.eqb s t
  | CInt x, CInt y => Z.eqb x y
  | _, _ => false
  end.

(** [c != 'N/A'] *)
Definition is_NA (c : cell) : bool := cell_eqb c (CStr "N/A").

(** [str(c)], also what an f-string and [astype(str)] print. *)
Definition py_str (c : cell) : string :=
  match c with
  | CNaN => "nan"
  | CStr s => s
  | CInt z => Str.of_Z z
  end.

(** ** network.py: [extract_coordinates] *)

Definition coordinate : Type := option float * option float.

Definition no_coordinate : coordinate := (None, None).

(** The body of the [try]: [Ok (Some r)] is [return r], [Ok None] is
    falling out of the [if]. *)
Definition extract_try (s : string) : res (option coordinate) :=
  let parts := Str.split "," s in
  if 2 <=? List.length parts then
    lat <- Float.py_float (Str.strip (nth 0 parts "")) ;;
    lon <- Float.py_float (Str.strip (nth 1 parts "")) ;;
    Ok (Some (Some lat, Some lon))
  else Ok None.

Definition extract_coordinates (coord_str : cell) : res coordinate :=
  match coord_str with
  | CStr s =>
      if negb (String.eqb s "N/A") && Str.contains "," s then
        match extract_try s with
        | Ok (Some r) => Ok r
        | Ok None => Ok no_coordinate
        | Raise ValueError | Raise TypeError => Ok no_coordinate
        | Raise e => Raise e
        end
      else Ok no_coordinate
  | _ => Ok no_coordinate
  end.

(** ** Dictionaries and data frames *)

(** A [dict] in insertion order. Assigning to a key that is present keeps
    the key's place and replaces the value. *)
Definition dict (K V : Type) : Type := list (K * V).

Section Dict.
Context {K V : Type} (eqb : K -> K -> bool).

Fixpoint dict_get (k : K) (d : dict K V) : option V :=
  match d with
  | [] => None
  | (k', v) :: t => if eqb k' k then Some v else dict_get k t
  end.

(** [k in d] *)
Definition dict_mem (k : K) (d : dict K V) : bool :=
  match dict_get k d with Some _ => true | None => false end.

(** [d[k] = v] *)
Fixpoint dict_set (k : K) (v : V) (d : dict K V) : dict K V :=
  match d with
  | [] => [(k, v)]
  | (k', v') :: t =>
      if eqb k' k then (k', v) :: t else (k', v') :: dict_set k v t
  end.

Definition keys (d : dict K V) : list K := map fst d.
Definition values (d : dict K V) : list V := map snd d.
End Dict.

(** A loop whose body can raise. *)
Fixpoint foldM {A S : Type} (f : S -> A -> res S) (rows : list A) (s : S)
  : res S :=
  match rows with
  | [] => Ok s
  | r :: t => s' <- f s r ;; foldM f t s'
  end.

(** A row of the sticker table. *)
Record sticker_row : Type := mk_sticker_row {
  sticker_ID : cell;
  sticker_location : cell;
  sticker_location_coordinates : cell
}.

(** A row of the general table. *)
Record general_row : Type := mk_general_row {
  sticker_id : cell;
  organization : cell;
  organization_location_coordinates : cell;
  topic : cell
}.

(** Equality of keys under [drop_duplicates]: as [==], and the missing
    value is a duplicate of the missing value. *)
Definition dup_eqb (a b : cell) : bool :=
  match a, b with
  | CNaN, CNaN => true
  | _, _ => cell_eqb a b
  end.

(** [df.drop_duplicates(subset=[col])], keeping the first row of each
    key; [seen] holds the keys of the rows already passed. *)
Fixpoint drop_duplicates_from {A : Type} (col : A -> cell)
  (seen : list cell) (rows : list A) : list A :=
  match rows with
  | [] => []
  | r :: t =>
      if existsb (dup_eqb (col r)) seen then drop_duplicates_from col seen t
      else r :: drop_duplicates_from col (col r :: seen) t
  end.

Definition drop_duplicates {A : Type} (col : A -> cell) (rows : list A)
  : list A :=
  drop_duplicates_from col [] rows.

(** ** network.py: the location mapping *)

Definition point : Type := float * float.

(** The body of the loop that fills [unique_points] / [sticker_points]. *)
Definition sticker_point_step (points : dict cell point) (row : sticker_row)
  : res (dict cell point) :=
  let location := sticker_location row in
  let coordinates := sticker_location_coordinates row in
  if notna location && notna coordinates then
    c <- extract_coordinates coordinates ;;
    match c with
    | (Some lat, Some lon) => Ok (dict_set cell_eqb location (lat, lon) points)
    | _ => Ok points
    end
  else Ok points.

Definition sticker_points_of (sticker_df : list sticker_row)
  : res (dict cell point) :=
  foldM sticker_point_step (drop_duplicates sticker_location sticker_df) [].

(** ** network.py: organization records *)

Record org_data : Type := mk_org_data {
  od_coords : point;
  od_org_name : string;
  od_sticker_id : cell;
  od_topic : string
}.

(** [str(c) if pd.notna(c) else "Unknown"] *)
Definition str_or_unknown (c : cell) : string :=
  if notna c then py_str c else "Unknown".

(** [f"{org_name}_{sticker_id}"] *)
Definition make_org_key (org_name : string) (id : cell) : string :=
  org_name ++ "_" ++ py_str id.

(** The body of the loop that fills [org_points]. *)
Definition org_point_step (org_points : dict string org_data)
  (row : general_row) : res (dict string org_data) :=
  let coords := organization_location_coordinates row in
  if notna coords && negb (is_NA coords) then
    c <- extract_coordinates coords ;;
    match c with
    | (Some lat, Some lon) =>
        let id := sticker_id row in
        let org_name := str_or_unknown (organization row) in
        let org_key := make_org_key org_name id in
        Ok (dict_set String.eqb org_key
              {| od_coords := (lat, lon);
                 od_org_name := org_name;
                 od_sticker_id := id;
                 od_topic := str_or_unknown (topic row) |}
              org_points)
    | _ => Ok org_points
    end
  else Ok org_points.

Definition org_points_of (general_df : list general_row)
  : res (dict string org_data) :=
  foldM org_point_step general_df [].

(** ** network.py: connections *)

Record connection : Type := mk_connection {
  cn_sticker_loc : cell;
  cn_sticker_coords : point;
  cn_org_key : string;
  cn_org_coords : point;
  cn_org_name : string;
  cn_topic : string
}.

(** The inner loop: the connections of one sticker row. *)
Definition connections_of_row (sticker_points : dict cell point)
  (org_points : dict string org_data) (sticker_row : sticker_row)
  : list connection :=
  let id := sticker_ID sticker_row in
  let sticker_loc := sticker_location sticker_row in
  flat_map
    (fun '(org_key, od) =>
       if cell_eqb (od_sticker_id od) id then
         match dict_get cell_eqb sticker_loc sticker_points with
         | Some sticker_coords =>
             [ {| cn_sticker_loc := sticker_loc;
                  cn_sticker_coords := sticker_coords;
                  cn_org_key := org_key;
                  cn_org_coords := od_coords od;
                  cn_org_name := od_org_name od;
                  cn_topic := od_topic od |} ]
         | None => []
         end
       else [])
    org_points.

Definition connections_of (sticker_df : list sticker_row)
  (sticker_points : dict cell point) (org_points : dict string org_data)
  : list connection :=
  flat_map (connections_of_row sticker_points org_points) sticker_df.

(** ** network.py: the map centre *)

(** A Python number: [sum] of an empty list is the integer 0. *)
Inductive num : Type :=
| NInt (z : Z)
| NFloat (f : float).

(** [sum(xs)] for a list of floats: [0 + x1 + x2 + ...], left to right,
    each addition rounded. *)
Definition py_sum (xs : list float) : num :=
  match xs with
  | [] => NInt 0
  | x :: t => NFloat (fold_left Float.add t (Float.add (Float.of_Z 0) x))
  end.

(** [a / n] for a length [n]. *)
Definition true_div (a : num) (n : nat) : res float :=
  match n with
  | O => Raise ZeroDivisionError
  | _ =>
      let d := Float.of_Z (Z.of_nat n) in
      match a with
      | NInt z => Ok (Float.div (Float.of_Z z) d)
      | NFloat f => Ok (Float.div f d)
      end
  end.

Definition all_lats (sticker_points : dict cell point)
  (org_points : dict string org_data) : list float :=
  map fst (values sticker_points)
  ++ map (fun od => fst (od_coords od)) (values org_points).

Definition all_lons (sticker_points : dict cell point)
  (org_points : dict string org_data) : list float :=
  map snd (values sticker_points)
  ++ map (fun od => snd (od_coords od)) (values org_points).

Definition map_center (sticker_points : dict cell point)
  (org_points : dict string org_data) : res point :=
  let lats := all_lats sticker_points org_points in
  let lons := all_lons sticker_points org_points in
  center_lat <- true_div (py_sum lats) (List.length lats) ;;
  center_lon <- true_div (py_sum lons) (List.length lons) ;;
  Ok (center_lat, center_lon).

(** ** Sorting *)

(** Insertion sort; an element is put before the first one it is below or
    equal to, so equal elements keep their order. *)
Section InsertionSort.
Context {A : Type} (leb : A -> A -> bool).

Fixpoint insert_sorted (x : A) (l : list A) : list A :=
  match l with
  | [] => [x]
  | y :: t => if leb x y then x :: y :: t else y :: insert_sorted x t
  end.

Fixpoint isort (l : list A) : list A :=
  match l with
  | [] => []
  | x :: t => insert_sorted x (isort t)
  end.
End InsertionSort.

(** A table of labels with a count each: the [Topic]/[Count] frame, and a
    [value_counts] series. *)
Definition counts : Type := list (string * nat).

Definition count_ge (a b : string * nat) : bool := snd b <=? snd a.

(** [sort_values(by count, ascending=False)]. The program asks pandas for
    its default sort, which orders by count and promises nothing about rows
    with equal counts, so the sort is an argument of the functions below;
    [sorter_ok] is what pandas promises. *)
Definition sorter : Type := counts -> counts.

Definition descending (l : counts) : Prop :=
  StronglySorted (fun a b => snd b <= snd a) l.

Definition sorter_ok (srt : sorter) : Prop :=
  forall l, Permutation l (srt l) /\ descending (srt l).

(** A sort that meets it, and keeps rows with equal counts in their
    order. *)
Definition stable_sort_desc : sorter := isort count_ge.

(** ** syntax/visual.py: [analyze_topic_frequencies] *)

(** [Counter(xs)]: the distinct elements in the order they first appear,
    with the number of their occurrences. *)
Definition counter_incr (c : counts) (x : string) : counts :=
  match dict_get String.eqb x c with
  | Some n => dict_set String.eqb x (S n) c
  | None => c ++ [(x, 1)]
  end.

Definition Counter (xs : list string) : counts := fold_left counter_incr xs [].

(** [astype(str).str.strip()] of a cell. *)
Definition clean (c : cell) : string := Str.strip (py_str c).

(** The cleaned topic column: the rows whose text is neither ["N/A"] nor
    ["nan"]. *)
Definition cleaned_topics (df : list general_row) : list string :=
  filter (fun t => negb (String.eqb t "N/A") && negb (String.eqb t "nan"))
    (map (fun r => clean (topic r)) df).

(** The aggregation of a cleaned topic sequence. *)
Definition topic_frequencies (srt : sorter) (topics : list string) : counts :=
  srt (Counter topics).

Definition analyze_topic_frequencies (srt : sorter) (df : list general_row)
  : counts :=
  topic_frequencies srt (cleaned_topics df).

(** ** syntax/visual.py: the frame drawn by [create_pie_chart] *)

Definition threshold : nat := 3.

(** [df['Count'].sum()] *)
Definition sum_counts (l : counts) : nat :=
  fold_right (fun r acc => snd r + acc) 0 l.

Definition pie_frame (topic_df : counts) : counts :=
  let to_group := filter (fun r => snd r <? threshold) topic_df in
  match to_group with
  | [] => topic_df
  | _ :: _ =>
      let other_count := sum_counts to_group in
      filter (fun r => threshold <=? snd r) topic_df
        ++ [("Other", other_count)]
  end.

(** ** syntax/visual.py: [analyze_organization_topics] *)

(** The rows kept by the filter, cleaned: (organization, topic). *)
Definition cleaned_pairs (df : list general_row) : list (string * string) :=
  map (fun r => (clean (organization r), clean (topic r)))
    (filter
       (fun r => notna (organization r) && negb (is_NA (organization r))
                 && notna (topic r) && negb (is_NA (topic r)))
       df).

Definition pair_eqb (a b : string * string) : bool :=
  String.eqb (fst a) (fst b) && String.eqb (snd a) (snd b).

(** Order of the group keys: by organization, then by topic. *)
Definition pair_leb (a b : string * string) : bool :=
  if String.eqb (fst a) (fst b) then String.leb (snd a) (snd b)
  else String.leb (fst a) (fst b).

(** The distinct elements, first occurrences in order. *)
Fixpoint unique {A : Type} (eqb : A -> A -> bool) (l : list A) : list A :=
  match l with
  | [] => []
  | x :: t => x :: filter (fun y => negb (eqb x y)) (unique eqb t)
  end.

Definition count_pair (p : string * string) (l : list (string * string))
  : nat :=
  List.length (filter (pair_eqb p) l).

(** The keys of the groups: the distinct pairs, in key order. *)
Definition group_keys (pairs : list (string * string))
  : list (string * string) :=
  isort pair_leb (unique pair_eqb pairs).

(** [df.groupby(['organization','topic']).size()]: one row for each
    distinct pair, in key order, with the number of its rows. *)
Definition groupby_size (pairs : list (string * string))
  : list ((string * string) * nat) :=
  map (fun k => (k, count_pair k pairs)) (group_keys pairs).

(** [series.nlargest(n)] with the default [keep='first']: the [n] largest,
    an earlier row of the series before a later one of the same count. *)
Definition nlargest (n : nat) (series : counts) : counts :=
  firstn n (stable_sort_desc series).

(** [df['organization'].value_counts().nlargest(10).index.tolist()] *)
Definition top_orgs_of (srt : sorter) (pairs : list (string * string))
  : list string :=
  map fst (nlargest 10 (srt (Counter (map fst pairs)))).

Definition isin (l : list string) (x : string) : bool :=
  existsb (String.eqb x) l.

Record pivot : Type := mk_pivot {
  pv_index : list string;
  pv_columns : list string;
  pv_cells : list (list nat)
}.

(** [pivot_table(index='organization', columns='topic', values='count',
    fill_value=0)] of a frame with one row for each key: rows and columns
    are the distinct organizations and topics in order, a cell is the count
    of its key or the fill value. *)
Definition pivot_table (rows : list ((string * string) * nat)) : pivot :=
  let index :=
    isort String.leb (unique String.eqb (map (fun r => fst (fst r)) rows)) in
  let columns :=
    isort String.leb (unique String.eqb (map (fun r => snd (fst r)) rows)) in
  {| pv_index := index;
     pv_columns := columns;
     pv_cells :=
       map (fun o =>
              map (fun t =>
                     match dict_get pair_eqb (o, t) rows with
                     | Some c => c
                     | None => 0
                     end)
                columns)
         index |}.

Definition organization_topics (srt : sorter) (df : list general_row)
  : pivot :=
  let pairs := cleaned_pairs df in
  let org_topic_counts := groupby_size pairs in
  let top_orgs := top_orgs_of srt pairs in
  let filtered_counts :=
    filter (fun r => isin top_orgs (fst (fst r))) org_topic_counts in
  pivot_table filtered_counts.

(** ** Printing, optional packages and rendering *)

(** What is handed to a rendering library. *)
Inductive drawing : Type :=
| StaticMap (basemap : bool) (nodes : dict cell point) (edges : list (cell * cell))
| InteractiveMap (center : point) (sticker_points : dict cell point)
    (org_points : dict string org_data) (connections : list connection)
| BarChart (topic_df : counts)
| PieChart (pie_df : counts)
| WordCloud (topic_dict : dict string nat)
| Heatmap (pivot_table : pivot).

(** The outside of a run: which optional packages import, and for which
    output file the rendering library fails, and how. *)
Record env : Type := mk_env {
  has_contextily : bool;
  has_folium : bool;
  has_wordcloud : bool;
  render_fault : string -> option exn
}.

(** What a run leaves behind: the printed lines and the written files. *)
Record world : Type := mk_world {
  stdout : list string;
  files : list (string * drawing)
}.

Definition io (A : Type) : Type := world -> res A * world.

Definition ret {A : Type} (a : A) : io A := fun w => (Ok a, w).

Definition raise {A : Type} (e : exn) : io A := fun w => (Raise e, w).

Definition bind_io {A B : Type} (m : io A) (k : A -> io B) : io B :=
  fun w =>
    match m w with
    | (Ok a, w') => k a w'
    | (Raise e, w') => (Raise e, w')
    end.

Declare Scope io_scope.
Delimit Scope io_scope with io.
Notation "x <- m ;; k" := (bind_io m (fun x => k))
  (at level 61, m at next level, right associativity) : io_scope.
Notation "m ;;; k" := (bind_io m (fun _ => k))
  (at level 61, right associativity) : io_scope.

Definition lift {A : Type} (r : res A) : io A := fun w => (r, w).

Definition print (line : string) : io unit :=
  fun w => (Ok tt, {| stdout := stdout w ++ [line]; files := files w |}).

(** [import pkg] *)
Definition import (available : bool) : io unit :=
  if available then ret tt else raise ImportError.

(** The calls into a rendering library that end in writing [file]. *)
Definition render (E : env) (file : string) (d : drawing) : io unit :=
  match render_fault E file with
  | Some e => raise e
  | None =>
      fun w => (Ok tt, {| stdout := stdout w; files := files w ++ [(file, d)] |})
  end.

(** [try: body except ImportError: handler] *)
Definition try_except_ImportError {A : Type} (body handler : io A) : io A :=
  fun w =>
    match body w with
    | (Raise ImportError, w') => handler w'
    | r => r
    end.

Definition nl : string := String (ascii_of_nat 10) EmptyString.

(** [min(xs)] and [max(xs)] of a list of floats. *)
Definition py_min (xs : list float) : res float :=
  match xs with
  | [] => Raise ValueError
  | x :: t =>
      Ok (fold_left (fun m y => if SFltb y m then y else m) t x)
  end.

Definition py_max (xs : list float) : res float :=
  match xs with
  | [] => Raise ValueError
  | x :: t =>
      Ok (fold_left (fun m y => if SFltb m y then y else m) t x)
  end.

(** The edges [points[i], points[i+1]]. *)
Fixpoint path_edges {A : Type} (points : list A) : list (A * A) :=
  match points with
  | a :: (b :: _) as t => (a, b) :: path_edges t
  | _ => []
  end.

Local Open Scope io_scope.

(** ** network.py: the two maps and the script *)

(** The source's second argument, the general file, is not used. *)
Definition create_simple_map (E : env) (sticker_df : list sticker_row)
  : io (dict cell point) :=
  unique_points <- lift (sticker_points_of sticker_df) ;;
  let edges := path_edges (keys unique_points) in
  let lons := map snd (values unique_points) in
  let lats := map fst (values unique_points) in
  try_except_ImportError
    (import (has_contextily E) ;;;
     _ <- lift (py_min lons) ;;
     _ <- lift (py_max lons) ;;
     _ <- lift (py_min lats) ;;
     _ <- lift (py_max lats) ;;
     render E "sticker_locations_map.png" (StaticMap true unique_points edges) ;;;
     print "Map created successfully!")
    (print "Contextily package not installed. Creating basic plot..." ;;;
     render E "sticker_locations_map.png" (StaticMap false unique_points edges)) ;;;
  ret unique_points.

Definition create_expanded_map (E : env) (sticker_df : list sticker_row)
  (general_df : list general_row) : io bool :=
  try_except_ImportError
    (import (has_folium E) ;;;
     sticker_points <- lift (sticker_points_of sticker_df) ;;
     org_points <- lift (org_points_of general_df) ;;
     let connections := connections_of sticker_df sticker_points org_points in
     center <- lift (map_center sticker_points org_points) ;;
     render E "expanded_network_map.html"
       (InteractiveMap center sticker_points org_points connections) ;;;
     print ("Interactive map created with "
              ++ Str.of_nat (List.length sticker_points) ++ " sticker locations, "
              ++ Str.of_nat (List.length org_points) ++ " organizations, and "
              ++ Str.of_nat (List.length connections) ++ " connections") ;;;
     ret true)
    (print "Error creating interactive map: No module named 'folium'" ;;;
     ret false).

Definition network_main (E : env) (sticker_df : list sticker_row)
  (general_df : list general_row) : io unit :=
  print "Creating map of sticker locations..." ;;;
  sticker_points <- create_simple_map E sticker_df ;;
  print ("Created map with " ++ Str.of_nat (List.length sticker_points)
           ++ " sticker locations") ;;;
  print (nl ++ "Creating expanded interactive map...") ;;;
  success <- create_expanded_map E sticker_df general_df ;;
  (if success : bool then
     print (nl ++ "Visualization complete!") ;;;
     print "Output files:" ;;;
     print "1. sticker_locations_map.png - Basic map showing sticker locations (Points A-I)" ;;;
     print "2. expanded_network_map.html - Interactive map showing sticker locations and organizations"
   else
     print (nl ++ "Could not create interactive map. Please install folium:") ;;;
     print "pip install folium") ;;;
  print (nl ++ "To ensure proper map background, make sure you have:") ;;;
  print "pip install contextily".

(** ** syntax/visual.py: the charts and the script *)

Definition create_bar_chart (E : env) (topic_df : counts)
  (output_file : string) : io unit :=
  render E output_file (BarChart topic_df) ;;;
  print ("Bar chart saved as " ++ output_file).

Definition create_pie_chart (E : env) (topic_df : counts)
  (output_file : string) : io unit :=
  render E output_file (PieChart (pie_frame topic_df)) ;;;
  print ("Pie chart saved as " ++ output_file).

(** [dict(zip(keys, values))] *)
Definition dict_of_rows (rows : counts) : dict string nat :=
  fold_left (fun d r => dict_set String.eqb (fst r) (snd r) d) rows [].

Definition create_wordcloud (E : env) (topic_df : counts)
  (output_file : string) : io unit :=
  try_except_ImportError
    (import (has_wordcloud E) ;;;
     render E output_file (WordCloud (dict_of_rows topic_df)) ;;;
     print ("Word cloud saved as " ++ output_file))
    (print "WordCloud package not installed. Install with: pip install wordcloud").

Definition analyze_organization_topics (E : env) (srt : sorter)
  (df : list general_row) (output_file : string) : io unit :=
  render E output_file (Heatmap (organization_topics srt df)) ;;;
  print ("Organization-topic heatmap saved as " ++ output_file).

Record paths : Type := mk_paths {
  file_path : string;
  bar_chart_path : string;
  pie_chart_path : string;
  wordcloud_path : string;
  heatmap_path : string
}.

Fixpoint print_rows (rows : counts) : io unit :=
  match rows with
  | [] => ret tt
  | (t, n) :: rest =>
      print ("  " ++ t ++ ": " ++ Str.of_nat n ++ " mentions") ;;;
      print_rows rest
  end.

Definition visual_main (E : env) (srt : sorter) (P : paths)
  (df : list general_row) : io unit :=
  print ("Looking for data file in: " ++ file_path P) ;;;
  let topic_df := analyze_topic_frequencies srt df in
  print ("Found " ++ Str.of_nat (List.length topic_df) ++ " unique topics") ;;;
  print "Top 5 topics:" ;;;
  print_rows (firstn 5 topic_df) ;;;
  create_bar_chart E topic_df (bar_chart_path P) ;;;
  create_pie_chart E topic_df (pie_chart_path P) ;;;
  create_wordcloud E topic_df (wordcloud_path P) ;;;
  analyze_organization_topics E srt df (heatmap_path P) ;;;
  print (nl ++ "Visualization complete!") ;;;
  print "Output files:" ;;;
  print ("1. " ++ bar_chart_path P ++ " - Bar chart of topic frequencies") ;;;
  print ("2. " ++ pie_chart_path P ++ " - Pie chart of topic distribution") ;;;
  print ("3. " ++ wordcloud_path P
           ++ " - Word cloud visualization of topics (requires wordcloud package)") ;;;
  print ("4. " ++ heatmap_path P
           ++ " - Heatmap showing which organizations focus on which topics").

Definition world0 : world := {| stdout := []; files := [] |}.

Local Close Scope io_scope.

(** * Statements of the specification, as predicates *)

(** A result is a pair of finite numbers or "no coordinate". *)
Definition finite_pair_or_none (r : res coordinate) : Prop :=
  r = Ok no_coordinate
  \/ exists lat lon,
       r = Ok (Some lat, Some lon)
       /\ Float.is_finite lat = true /\ Float.is_finite lon = true.

(** A result is a pair of floats or "no coordinate". *)
Definition pair_or_none (r : res coordinate) : Prop :=
  r = Ok no_coordinate \/ exists lat lon, r = Ok (Some lat, Some lon).

(** A text that [float()] rejects. *)
Definition not_a_number (s : string) : Prop :=
  forall f, Float.py_float s <> Ok f.

(** The coordinate a cell resolves to: none when the cell is missing or
    its text does not parse. *)
Definition resolve (c : cell) : option point :=
  if notna c then
    match extract_coordinates c with
    | Ok (Some lat, Some lon) => Some (lat, lon)
    | _ => None
    end
  else None.

(** The first row of the sticker table with a given location name. *)
Definition first_named (name : cell) (sticker_df : list sticker_row)
  : option sticker_row :=
  find (fun r => cell_eqb (sticker_location r) name) sticker_df.

(** A sticker row and an organization record match when they bear the same
    linking identifier and the row's location name is in the mapping. *)
Definition is_match (sticker_points : dict cell point)
  (p : sticker_row * (string * org_data)) : bool :=
  cell_eqb (od_sticker_id (snd (snd p))) (sticker_ID (fst p))
  && dict_mem cell_eqb (sticker_location (fst p)) sticker_points.

(** The matching pairs, by sticker row and then by organization record. *)
Definition matching_pairs (sticker_df : list sticker_row)
  (sticker_points : dict cell point) (org_points : dict string org_data)
  : list (sticker_row * (string * org_data)) :=
  filter (is_match sticker_points) (list_prod sticker_df org_points).

(** The connection of a pair: both endpoints' coordinates and the
    organization's name and topic. *)
Definition connection_of_pair (sticker_points : dict cell point)
  (p : sticker_row * (string * org_data)) (c : connection) : Prop :=
  cn_sticker_loc c = sticker_location (fst p)
  /\ dict_get cell_eqb (sticker_location (fst p)) sticker_points
     = Some (cn_sticker_coords c)
  /\ cn_org_key c = fst (snd p)
  /\ cn_org_coords c = od_coords (snd (snd p))
  /\ cn_org_name c = od_org_name (snd (snd p))
  /\ cn_topic c = od_topic (snd (snd p)).

(** [0 + x1 + x2 + ...] *)
Definition float_sum (xs : list float) : float :=
  fold_left Float.add xs (Float.of_Z 0).

(** The arithmetic mean of a list of floats, as the program computes it. *)
Definition mean (xs : list float) : float :=
  Float.div (float_sum xs) (Float.of_Z (Z.of_nat (List.length xs))).

(** The number of occurrences of a label. *)
Definition count_str (t : string) (l : list string) : nat :=
  List.length (filter (String.eqb t) l).

(** Rows with equal counts are in the order of first appearance: for every
    count, the labels of the rows with that count read as the labels
    occurring that many times do in order of first occurrence. *)
Definition ties_first_seen (topics : list string) (out : counts) : Prop :=
  forall c,
    map fst (filter (fun r => snd r =? c) out)
    = filter (fun t => count_str t topics =? c) (unique String.eqb topics).

(** A sort that keeps the rows of each count in the order it found them
    in, as a sort asked for with [kind='stable'] does. *)
Definition sorter_stable (srt : sorter) : Prop :=
  forall c l,
    filter (fun r => snd r =? c) (srt l) = filter (fun r => snd r =? c) l.

(** [x] stands before [y] in [l]. *)
Definition before {A : Type} (x y : A) (l : list A) : Prop :=
  exists l1 l2 l3, l = l1 ++ x :: l2 ++ y :: l3.

(** Ties for a place among the selected organizations go to the one seen
    first: when an organization is selected, so is every organization
    with the same number of rows that appears before it in the data. *)
Definition ties_by_first_seen (orgs top : list string) : Prop :=
  forall o o',
    In o top ->
    count_str o' orgs = count_str o orgs ->
    before o' o (unique String.eqb orgs) ->
    In o' top.

(** The sum of all the cells of a matrix. *)
Definition sum_cells (cells : list (list nat)) : nat :=
  list_sum (map list_sum cells).

(** The keys of the grouped rows that pass the filter on the selected
    organizations. *)
Definition selected_keys (top : list string) (pairs : list (string * string))
  : list (string * string) :=
  filter (fun k => isin top (fst k)) (group_keys pairs).

(** Eighteen labels. *)
Definition eighteen_labels : list string :=
  ["l01"; "l02"; "l03"; "l04"; "l05"; "l06"; "l07"; "l08"; "l09"; "l10";
   "l11"; "l12"; "l13"; "l14"; "l15"; "l16"; "l17"; "l18"].

(** Eighteen organizations with one row each, all on one topic. *)
Definition eighteen_orgs : list general_row :=
  map (fun o => mk_general_row CNaN (CStr o) CNaN (CStr "t")) eighteen_labels.




(** The output files of the chart script. *)
Definition chart_paths : paths :=
  {| file_path := "data/general.xlsx";
     bar_chart_path := "output/topic_bar_chart.png";
     pie_chart_path := "output/topic_pie_chart.png";
     wordcloud_path := "output/topic_wordcloud.png";
     heatmap_path := "output/organization_topic_heatmap.png" |}.

(** Every package installed; the bar chart cannot be written. *)
Definition env_bar_fault : env :=
  {| has_contextily := true;
     has_folium := true;
     has_wordcloud := true;
     render_fault :=
       fun file =>
         if String.eqb file "output/topic_bar_chart.png" then Some OSError
         else None |}.

(** Every package installed and no rendering fault. *)
Definition env_all : env :=
  {| has_contextily := true;
     has_folium := true;
     has_wordcloud := true;
     render_fault := fun _ => None |}.


(** A sticker table whose only location has no coordinate, and a general
    table with one organization that has one. *)
Definition unlocated_stickers : list sticker_row :=
  [mk_sticker_row (CInt 1) (CStr "A") (CStr "N/A")].

Definition one_organization : list general_row :=
  [mk_general_row (CInt 1) (CStr "Org") (CStr "48.2, 16.37") (CStr "climate")].

Definition line_of_row (r : string * nat) : string :=
  "  " ++ fst r ++ ": " ++ Str.of_nat (snd r) ++ " mentions".

(** The entry a sticker row contributes to the location mapping when it
    is the first row of its name. *)
Definition located (r : sticker_row) : dict cell point :=
  if notna (sticker_location r) then
    match resolve (sticker_location_coordinates r) with
    | Some pt => [(sticker_location r, pt)]
    | None => []
    end
  else [].

(** A sticker table with one located sticker. *)
Definition one_sticker : list sticker_row :=
  [mk_sticker_row (CInt 1) (CStr "A") (CStr "48.21, 16.36")].

(** The line printed when the interactive map is written. *)
Definition created_message (sticker_points : dict cell point)
  (org_points : dict string org_data) (connections : list connection)
  : string :=
  "Interactive map created with "
  ++ Str.of_nat (List.length sticker_points) ++ " sticker locations, "
  ++ Str.of_nat (List.length org_points) ++ " organizations, and "
  ++ Str.of_nat (List.length connections) ++ " connections".

(** The key and the record that a row of the general table is stored
    under and as, once its coordinate has resolved to [pt]. *)
Definition org_key_of (row : general_row) : string :=
  make_org_key (str_or_unknown (organization row)) (sticker_id row).

Definition org_record_of (row : general_row) (pt : point) : org_data :=
  {| od_coords := pt;
     od_org_name := str_or_unknown (organization row);
     od_sticker_id := sticker_id row;
     od_topic := str_or_unknown (topic row) |}.

(** The number of rows of the table whose cleaned topic is a label. *)
Definition rows_with_topic (label : string) (df : list general_row) : nat :=
  List.length (filter (fun r => String.eqb label (clean (topic r))) df).

(** The line printed when the word-cloud package does not import. *)
Definition wordcloud_missing : string :=
  "WordCloud package not installed. Install with: pip install wordcloud".

(** The location mapping of [one_sticker] and the organization records of
    [one_organization]. *)
Definition one_sticker_points : dict cell point :=
  [(CStr "A", (Float.of_decimal false 4821 (-2), Float.of_decimal false 1636 (-2)))].

Definition one_org_points : dict string org_data :=
  [("Org_1",
    {| od_coords :=
         (Float.of_decimal false 482 (-1), Float.of_decimal false 1637 (-2));
       od_org_name := "Org";
       od_sticker_id := CInt 1;
       od_topic := "climate" |})].

(** Two rows of one organization and identifier, the later one moved and
    on another topic. *)
Definition earlier_row : general_row :=
  mk_general_row (CInt 1) (CStr "Org") (CStr "1, 1") (CStr "housing").

Definition later_row : general_row :=
  mk_general_row (CInt 1) (CStr "Org") (CStr "2, 2") (CStr "climate").

(** A row whose topic is ["N/A"] after a blank. *)
Definition padded_row : general_row :=
  mk_general_row (CInt 1) (CStr "Org") (CStr "1, 1") (CStr " N/A").

(** * Properties *)

(** ** The coordinate parser *)

Lemma py_float_cases (s : string) :
  (exists f, Float.py_float s = Ok f) \/ Float.py_float s = Raise ValueError.
Proof.
  unfold Float.py_float.
  destruct (Float.no_underscores None _) as [cs|]; [|now right].
  destruct (Float.parse_inf_or_nan cs) as [f|]; [left; now exists f|].
  destruct (Float.parse_decimal cs) as [f|]; [left; now exists f|now right].
Qed.

Lemma not_a_number_raises (s : string) :
  not_a_number s -> Float.py_float s = Raise ValueError.
Proof.
  intros H. destruct (py_float_cases s) as [[f Hf]|Hr]; [|exact Hr].
  now elim (H f).
Qed.

Lemma split_no_separator (c : ascii) (s : string) :
  Str.contains c s = false -> Str.split c s = [s].
Proof.
  induction s as [|a t IH]; simpl; [reflexivity|].
  intros H. apply orb_false_iff in H as [Ha Ht].
  rewrite Ha, (IH Ht). reflexivity.
Qed.

Lemma split_two_parts (c : ascii) (s p0 p1 : string) (rest : list string) :
  Str.split c s = p0 :: p1 :: rest -> Str.contains c s = true.
Proof.
  intros H. destruct (Str.contains c s) eqn:Hc; [reflexivity|].
  rewrite (split_no_separator _ _ Hc) in H. discriminate.
Qed.

(** What the [try] block does once the text is split. *)
Lemma extract_try_parts (s p0 p1 : string) (rest : list string) :
  Str.split "," s = p0 :: p1 :: rest ->
  extract_try s =
    (lat <- Float.py_float (Str.strip p0) ;;
     lon <- Float.py_float (Str.strip p1) ;;
     Ok (Some (Some lat, Some lon))).
Proof.
  intros H. unfold extract_try. rewrite H. reflexivity.
Qed.

Lemma extract_coordinates_string (s : string) :
  extract_coordinates (CStr s) =
    if negb (String.eqb s "N/A") && Str.contains "," s then
      match extract_try s with
      | Ok (Some r) => Ok r
      | Ok None => Ok no_coordinate
      | Raise ValueError | Raise TypeError => Ok no_coordinate
      | Raise e => Raise e
      end
    else Ok no_coordinate.
Proof. reflexivity. Qed.

Lemma extract_coordinates_pair_or_none (v : cell) :
  pair_or_none (extract_coordinates v).
Proof.
  destruct v as [|s|z]; try (left; reflexivity).
  rewrite extract_coordinates_string.
  destruct (negb (String.eqb s "N/A") && Str.contains "," s);
    [|left; reflexivity].
  unfold extract_try.
  destruct (2 <=? List.length (Str.split "," s)); [|left; reflexivity].
  destruct (py_float_cases (Str.strip (nth 0 (Str.split "," s) "")))
    as [[lat ->] | ->]; [|left; reflexivity].
  destruct (py_float_cases (Str.strip (nth 1 (Str.split "," s) "")))
    as [[lon ->] | ->]; [|left; reflexivity].
  right. exists lat, lon. reflexivity.
Qed.

(** C1, as the code has it: for every cell, a string or not,
    [extract_coordinates] returns without raising, and what it returns is
    "no coordinate" or a pair of floats. The model is a function of its
    argument alone, so the call has no side effect. The floats are those
    [float()] gives for the two parts, finite or not. *)
Theorem extract_coordinates_total (v : cell) :
  exists c : coordinate,
    extract_coordinates v = Ok c
    /\ (c = no_coordinate \/ exists lat lon, c = (Some lat, Some lon)).
Proof.
  destruct (extract_coordinates_pair_or_none v) as [H|(lat & lon & H)];
    rewrite H.
  - exists no_coordinate. split; [reflexivity|now left].
  - exists (Some lat, Some lon). split; [reflexivity|].
    right. now exists lat, lon.
Qed.

(** C1 as stated fails: the text ["1e999, nan"] is a string, and the pair
    returned for it is infinity and NaN, neither of them finite. *)
Lemma extract_coordinates_not_finite :
  extract_coordinates (CStr "1e999, nan") = Ok (Some Float.inf, Some Float.nan)
  /\ ~ finite_pair_or_none (extract_coordinates (CStr "1e999, nan")).
Proof.
  assert (E : extract_coordinates (CStr "1e999, nan")
              = Ok (Some Float.inf, Some Float.nan)) by (vm_compute; reflexivity).
  split; [exact E|].
  rewrite E. intros [H|(lat & lon & H & Hlat & _)].
  - discriminate H.
  - injection H as <- <-. discriminate Hlat.
Qed.

(** C7: the cases of the parser. A cell that is not a string, the text
    ["N/A"] and a text without a comma give "no coordinate"; a text whose
    first two comma-separated parts are both accepted by [float()] after
    stripping gives that pair, whatever parts follow; a text one of whose
    first two parts is rejected gives "no coordinate"; and the three
    examples of the specification. *)
Theorem extract_coordinates_cases :
  (forall v, (forall s, v <> CStr s) -> extract_coordinates v = Ok no_coordinate)
  /\ extract_coordinates (CStr "N/A") = Ok no_coordinate
  /\ (forall s, Str.contains "," s = false ->
        extract_coordinates (CStr s) = Ok no_coordinate)
  /\ (forall s p0 p1 rest lat lon,
        s <> "N/A" ->
        Str.split "," s = p0 :: p1 :: rest ->
        Float.py_float (Str.strip p0) = Ok lat ->
        Float.py_float (Str.strip p1) = Ok lon ->
        extract_coordinates (CStr s) = Ok (Some lat, Some lon))
  /\ (forall s p0 p1 rest,
        Str.split "," s = p0 :: p1 :: rest ->
        not_a_number (Str.strip p0) \/ not_a_number (Str.strip p1) ->
        extract_coordinates (CStr s) = Ok no_coordinate)
  /\ extract_coordinates (CStr "52.5, 13.4")
     = Ok (Some (Float.of_decimal false 525 (-1)),
           Some (Float.of_decimal false 134 (-1)))
  /\ extract_coordinates (CStr "abc, 13.4") = Ok no_coordinate
  /\ extract_coordinates (CStr "52.5,13.4,extra")
     = Ok (Some (Float.of_decimal false 525 (-1)),
           Some (Float.of_decimal false 134 (-1))).
Proof.
  split; [|split; [|split; [|split; [|split; [|split; [|split]]]]]].
  - intros [|s|z] H; try reflexivity. now elim (H s).
  - reflexivity.
  - intros s H. rewrite extract_coordinates_string, H.
    now rewrite andb_false_r.
  - intros s p0 p1 rest lat lon Hna Hs H0 H1.
    rewrite extract_coordinates_string.
    apply String.eqb_neq in Hna. rewrite Hna.
    rewrite (split_two_parts _ _ _ _ _ Hs). simpl.
    rewrite (extract_try_parts _ _ _ _ Hs), H0, H1. reflexivity.
  - intros s p0 p1 rest Hs H.
    rewrite extract_coordinates_string.
    destruct (negb (String.eqb s "N/A") && Str.contains "," s);
      [|reflexivity].
    rewrite (extract_try_parts _ _ _ _ Hs).
    destruct H as [H|H].
    + rewrite (not_a_number_raises _ H). reflexivity.
    + rewrite (not_a_number_raises _ H).
      destruct (py_float_cases (Str.strip p0)) as [[f ->] | ->]; reflexivity.
  - vm_compute. reflexivity.
  - vm_compute. reflexivity.
  - vm_compute. reflexivity.
Qed.

(** ** Dictionaries *)

Lemma cell_eqb_eq (a b : cell) :
  cell_eqb a b = true <-> a = b /\ a <> CNaN.
Proof.
  destruct a as [|s|x], b as [|t|y]; simpl;
    try (split; [discriminate|intros [H _]; discriminate H]).
  - split; [discriminate|intros [_ H]; now elim H].
  - rewrite String.eqb_eq. split.
    + intros ->. split; [reflexivity|discriminate].
    + intros [H _]. now injection H.
  - rewrite Z.eqb_eq. split.
    + intros ->. split; [reflexivity|discriminate].
    + intros [H _]. now injection H.
Qed.

Lemma dup_eqb_eq (a b : cell) : dup_eqb a b = true <-> a = b.
Proof.
  destruct a as [|s|x], b as [|t|y]; simpl;
    try (split; [discriminate|intros H; discriminate H]).
  - split; reflexivity.
  - rewrite String.eqb_eq. split; [now intros ->|intros H; now injection H].
  - rewrite Z.eqb_eq. split; [now intros ->|intros H; now injection H].
Qed.

Lemma seen_In (x : cell) (seen : list cell) :
  existsb (dup_eqb x) seen = true <-> In x seen.
Proof.
  rewrite existsb_exists. split.
  - intros (y & Hy & E). apply dup_eqb_eq in E. now subst.
  - intros H. exists x. split; [exact H|now apply dup_eqb_eq].
Qed.

Lemma NoDup_snoc {A : Type} (x : A) (l : list A) :
  NoDup l -> ~ In x l -> NoDup (l ++ [x]).
Proof.
  intros Hl Hx. apply (Permutation_NoDup (Permutation_cons_append l x)).
  now constructor.
Qed.

Section DictLemmas.
Context {K V : Type} (eqb : K -> K -> bool).

Lemma dict_get_absent (k : K) (d : dict K V) :
  (forall k', In k' (keys d) -> eqb k' k = false) ->
  dict_get eqb k d = None.
Proof.
  induction d as [|[k' v] t IH]; simpl; [reflexivity|].
  intros H. rewrite (H k' (or_introl eq_refl)).
  apply IH. intros k'' Hin. apply H. now right.
Qed.

Lemma dict_set_fresh (k : K) (v : V) (d : dict K V) :
  dict_get eqb k d = None -> dict_set eqb k v d = d ++ [(k, v)].
Proof.
  induction d as [|[k' v'] t IH]; simpl; [reflexivity|].
  destruct (eqb k' k); [discriminate|].
  intros H. now rewrite (IH H).
Qed.

Lemma dict_get_app (k : K) (d e : dict K V) :
  dict_get eqb k (d ++ e) =
    match dict_get eqb k d with
    | Some v => Some v
    | None => dict_get eqb k e
    end.
Proof.
  induction d as [|[k' v'] t IH]; simpl; [reflexivity|].
  destruct (eqb k' k); [reflexivity|exact IH].
Qed.

Lemma keys_app (d e : dict K V) : keys (d ++ e) = keys d ++ keys e.
Proof. unfold keys. apply map_app. Qed.

End DictLemmas.

(** ** The location reconciler *)

Lemma sticker_point_step_resolve (points : dict cell point) (row : sticker_row) :
  sticker_point_step points row =
    Ok (if notna (sticker_location row) then
          match resolve (sticker_location_coordinates row) with
          | Some pt => dict_set cell_eqb (sticker_location row) pt points
          | None => points
          end
        else points).
Proof.
  unfold sticker_point_step, resolve.
  destruct (notna (sticker_location row)); simpl; [|reflexivity].
  destruct (notna (sticker_location_coordinates row)); simpl; [|reflexivity].
  destruct (extract_coordinates_pair_or_none (sticker_location_coordinates row))
    as [H|(lat & lon & H)]; rewrite H; reflexivity.
Qed.

(** The loop over the deduplicated rows, started anywhere: [seen] are the
    names already passed, and every key of [acc] is a name already passed
    that is not the missing value. *)
Lemma sticker_points_loop (rows : list sticker_row) :
  forall (seen : list cell) (acc : dict cell point),
    NoDup (keys acc) ->
    (forall k, In k (keys acc) -> In k seen /\ k <> CNaN) ->
    exists points,
      foldM sticker_point_step
        (drop_duplicates_from sticker_location seen rows) acc = Ok points
      /\ NoDup (keys points)
      /\ (forall k, In k (keys points) -> k <> CNaN)
      /\ (forall name,
            dict_get cell_eqb name points =
              match dict_get cell_eqb name acc with
              | Some v => Some v
              | None =>
                  if existsb (dup_eqb name) seen then None
                  else match first_named name rows with
                       | Some r => resolve (sticker_location_coordinates r)
                       | None => None
                       end
              end).
Proof.
  induction rows as [|r t IH]; intros seen acc Hnd Hkeys.
  - exists acc. simpl. repeat split; try assumption.
    + intros k Hk. now apply Hkeys.
    + intros name. destruct (dict_get cell_eqb name acc); [reflexivity|].
      now destruct (existsb (dup_eqb name) seen).
  - simpl. destruct (existsb (dup_eqb (sticker_location r)) seen) eqn:Hseen.
    + destruct (IH seen acc Hnd Hkeys) as (points & Hrun & Hnd' & Hna & Hget).
      exists points. repeat split; try assumption.
      intros name. rewrite Hget.
      destruct (dict_get cell_eqb name acc); [reflexivity|].
      destruct (existsb (dup_eqb name) seen) eqn:Hname; [reflexivity|].
      unfold first_named. simpl.
      destruct (cell_eqb (sticker_location r) name) eqn:E; [|reflexivity].
      apply cell_eqb_eq in E as [E _]. rewrite E in Hseen. congruence.
    + simpl. rewrite sticker_point_step_resolve. simpl.
      assert (Hfresh : dict_get cell_eqb (sticker_location r) acc = None).
      { apply dict_get_absent. intros k Hk.
        destruct (cell_eqb k (sticker_location r)) eqn:E; [|reflexivity].
        apply cell_eqb_eq in E as [E _]. subst k.
        apply Hkeys in Hk as [Hk _]. apply seen_In in Hk. congruence. }
      set (acc' :=
             if notna (sticker_location r) then
               match resolve (sticker_location_coordinates r) with
               | Some pt => dict_set cell_eqb (sticker_location r) pt acc
               | None => acc
               end
             else acc).
      assert (Hacc' :
                acc' = acc
                \/ exists pt,
                     notna (sticker_location r) = true
                     /\ resolve (sticker_location_coordinates r) = Some pt
                     /\ acc' = acc ++ [(sticker_location r, pt)]).
      { unfold acc'. destruct (notna (sticker_location r)); [|now left].
        destruct (resolve (sticker_location_coordinates r)) as [pt|];
          [|now left].
        right. exists pt. repeat split. now apply dict_set_fresh. }
      assert (Hnotin : ~ In (sticker_location r) (keys acc)).
      { intros Hin. apply Hkeys in Hin as [Hin _].
        apply seen_In in Hin. congruence. }
      destruct (IH (sticker_location r :: seen) acc') as
        (points & Hrun & Hnd' & Hna & Hget).
      { destruct Hacc' as [->|(pt & _ & _ & ->)]; [exact Hnd|].
        rewrite keys_app. simpl. now apply NoDup_snoc. }
      { intros k Hk.
        destruct Hacc' as [->|(pt & Hn & _ & ->)].
        - destruct (Hkeys k Hk) as [H1 H2]. split; [now right|exact H2].
        - rewrite keys_app in Hk. apply in_app_or in Hk as [Hk|Hk].
          + destruct (Hkeys k Hk) as [H1 H2]. split; [now right|exact H2].
          + simpl in Hk. destruct Hk as [<-|[]]. split; [now left|].
            intros E. rewrite E in Hn. discriminate. }
      exists points. repeat split; try assumption.
      intros name. rewrite Hget. unfold first_named. simpl.
      destruct (cell_eqb (sticker_location r) name) eqn:E.
      * apply cell_eqb_eq in E as [E Hn]. subst name.
        rewrite Hfresh, Hseen.
        destruct Hacc' as [Heq|(pt & _ & Hres & Heq)]; rewrite Heq.
        -- rewrite Hfresh.
           assert (Hd : dup_eqb (sticker_location r) (sticker_location r) = true)
             by now apply dup_eqb_eq.
           rewrite Hd. simpl.
           unfold acc' in Heq.
           destruct (sticker_location r) eqn:El; try now elim Hn.
           ++ simpl in Heq.
              destruct (resolve (sticker_location_coordinates r)) as [pt|] eqn:Hr;
                [|reflexivity].
              rewrite <- El in Heq, Hfresh.
              rewrite (dict_set_fresh _ _ _ _ Hfresh) in Heq.
              apply (f_equal (@List.length _)) in Heq.
              rewrite length_app in Heq. simpl in Heq. lia.
           ++ simpl in Heq.
              destruct (resolve (sticker_location_coordinates r)) as [pt|] eqn:Hr;
                [|reflexivity].
              rewrite <- El in Heq, Hfresh.
              rewrite (dict_set_fresh _ _ _ _ Hfresh) in Heq.
              apply (f_equal (@List.length _)) in Heq.
              rewrite length_app in Heq. simpl in Heq. lia.
        -- rewrite dict_get_app, Hfresh. simpl.
           assert (Hc : cell_eqb (sticker_location r) (sticker_location r) = true)
             by (apply cell_eqb_eq; now split).
           rewrite Hc. now rewrite Hres.
      * assert (Hsame : dict_get cell_eqb name acc' = dict_get cell_eqb name acc).
        { destruct Hacc' as [->|(pt & _ & _ & ->)]; [reflexivity|].
          rewrite dict_get_app. simpl. rewrite E.
          now destruct (dict_get cell_eqb name acc). }
        rewrite Hsame.
        destruct (dict_get cell_eqb name acc); [reflexivity|].
        destruct (dup_eqb name (sticker_location r)) eqn:Ed; simpl;
          [|reflexivity].
        apply dup_eqb_eq in Ed. subst name.
        (* the name is the missing value: nothing is ever stored under it *)
        assert (Hnan : sticker_location r = CNaN).
        { destruct (sticker_location r); simpl in E;
            [reflexivity
            |rewrite String.eqb_refl in E; discriminate
            |rewrite Z.eqb_refl in E; discriminate]. }
        rewrite Hnan. simpl.
        destruct (existsb (dup_eqb CNaN) seen); [reflexivity|].
        clear. induction t as [|r' t' IHt]; simpl; [reflexivity|].
        destruct (sticker_location r'); simpl; exact IHt.
Qed.

(** C2: the location mapping built from the sticker table. The loop never
    raises; no two entries of the mapping share a name and no entry is
    under the missing name; and the entry of a name is decided by the first
    row bearing that name alone: the coordinate that row's text resolves
    to, and no entry at all when that row's coordinate cell is missing or
    does not parse, whatever later rows of the same name hold. On the
    example of the specification the mapping is A -> (1, 1), B -> (3, 3). *)
Theorem sticker_points_first_occurrence (sticker_df : list sticker_row) :
  (exists points,
     sticker_points_of sticker_df = Ok points
     /\ NoDup (keys points)
     /\ (forall k, In k (keys points) -> notna k = true)
     /\ (forall name,
           dict_get cell_eqb name points =
             match first_named name sticker_df with
             | Some r => resolve (sticker_location_coordinates r)
             | None => None
             end))
  /\ (forall id1 id2 id3,
        sticker_points_of
          [ mk_sticker_row id1 (CStr "A") (CStr "1,1");
            mk_sticker_row id2 (CStr "A") (CStr "2,2");
            mk_sticker_row id3 (CStr "B") (CStr "3,3") ]
        = Ok [ (CStr "A", (Float.of_Z 1, Float.of_Z 1));
               (CStr "B", (Float.of_Z 3, Float.of_Z 3)) ]).
Proof.
  split.
  - destruct (sticker_points_loop sticker_df [] []) as
      (points & Hrun & Hnd & Hna & Hget).
    + constructor.
    + intros k [].
    + exists points. split; [exact Hrun|]. split; [exact Hnd|]. split.
      * intros k Hk. specialize (Hna k Hk). now destruct k.
      * intros name. rewrite Hget. reflexivity.
  - intros id1 id2 id3. vm_compute. reflexivity.
Qed.

(** ** Organization records *)

Lemma org_point_step_resolve (org_points : dict string org_data)
  (row : general_row) :
  org_point_step org_points row =
    Ok (match resolve (organization_location_coordinates row) with
        | Some pt =>
            if is_NA (organization_location_coordinates row) then org_points
            else
              let org_name := str_or_unknown (organization row) in
              dict_set String.eqb (make_org_key org_name (sticker_id row))
                {| od_coords := pt;
                   od_org_name := org_name;
                   od_sticker_id := sticker_id row;
                   od_topic := str_or_unknown (topic row) |}
                org_points
        | None => org_points
        end).
Proof.
  unfold org_point_step, resolve.
  destruct (notna (organization_location_coordinates row)); simpl;
    [|reflexivity].
  destruct (extract_coordinates_pair_or_none
              (organization_location_coordinates row))
    as [H|(lat & lon & H)]; rewrite H; simpl.
  - now destruct (is_NA (organization_location_coordinates row)).
  - now destruct (is_NA (organization_location_coordinates row)).
Qed.

Lemma resolve_NA (c : cell) : is_NA c = true -> resolve c = None.
Proof.
  intros H. apply cell_eqb_eq in H as [-> _]. reflexivity.
Qed.

Lemma org_points_loop (rows : list general_row) :
  forall acc, exists org_points, foldM org_point_step rows acc = Ok org_points.
Proof.
  induction rows as [|r t IH]; intros acc; simpl.
  - now exists acc.
  - rewrite org_point_step_resolve. simpl. apply IH.
Qed.

Lemma dict_get_set_same {V : Type} (k : string) (v : V) (d : dict string V) :
  dict_get String.eqb k (dict_set String.eqb k v d) = Some v.
Proof.
  induction d as [|[k' v'] t IH]; simpl.
  - now rewrite String.eqb_refl.
  - destruct (String.eqb k' k) eqn:E; simpl; rewrite E; [reflexivity|exact IH].
Qed.

Lemma dict_mem_set {V : Type} (k k' : string) (v : V) (d : dict string V) :
  dict_mem String.eqb k d = true ->
  dict_mem String.eqb k (dict_set String.eqb k' v d) = true.
Proof.
  unfold dict_mem. induction d as [|[k0 v0] t IH]; simpl; [discriminate|].
  destruct (String.eqb k0 k') eqn:E; simpl.
  - destruct (String.eqb k0 k); [reflexivity|exact (fun H => H)].
  - destruct (String.eqb k0 k); [reflexivity|exact IH].
Qed.

(** A key once in the dictionary stays in it through the rest of the
    loop. *)
Lemma org_points_keeps_keys (rows : list general_row) :
  forall acc org_points key,
    foldM org_point_step rows acc = Ok org_points ->
    dict_mem String.eqb key acc = true ->
    dict_mem String.eqb key org_points = true.
Proof.
  induction rows as [|r t IH]; intros acc org_points key; simpl.
  - intros H. now injection H as <-.
  - rewrite org_point_step_resolve. simpl. intros Hrun Hmem.
    apply (IH _ _ _ Hrun).
    destruct (resolve (organization_location_coordinates r)); [|exact Hmem].
    destruct (is_NA (organization_location_coordinates r)); [exact Hmem|].
    now apply dict_mem_set.
Qed.

Lemma org_points_has_key (rows : list general_row) :
  forall acc org_points row pt,
    foldM org_point_step rows acc = Ok org_points ->
    In row rows ->
    resolve (organization_location_coordinates row) = Some pt ->
    dict_mem String.eqb
      (make_org_key (str_or_unknown (organization row)) (sticker_id row))
      org_points = true.
Proof.
  induction rows as [|r t IH]; intros acc org_points row pt Hrun Hin Hres;
    [destruct Hin|].
  simpl in Hrun. rewrite org_point_step_resolve in Hrun. simpl in Hrun.
  destruct Hin as [->|Hin]; [|exact (IH _ _ _ _ Hrun Hin Hres)].
  apply (org_points_keeps_keys _ _ _ _ Hrun).
  rewrite Hres.
  destruct (is_NA (organization_location_coordinates row)) eqn:Hna.
  - rewrite (resolve_NA _ Hna) in Hres. discriminate.
  - unfold dict_mem. now rewrite dict_get_set_same.
Qed.

(** C8: the organization records. A row whose coordinate cell is missing,
    is ["N/A"] or does not resolve leaves the dictionary as it was and
    raises nothing. A row whose coordinate resolves is stored under its
    key, with ["Unknown"] for the organization name when that cell is
    missing and ["Unknown"] for the topic when that cell is missing; and at
    the end of the loop, which never raises, the key of every such row is
    in the dictionary. *)
Theorem org_records_dropped_or_kept (general_df : list general_row) :
  (forall acc row,
     organization_location_coordinates row = CNaN
     \/ organization_location_coordinates row = CStr "N/A"
     \/ resolve (organization_location_coordinates row) = None ->
     org_point_step acc row = Ok acc)
  /\ (forall acc row pt,
        resolve (organization_location_coordinates row) = Some pt ->
        exists acc',
          org_point_step acc row = Ok acc'
          /\ dict_get String.eqb
               (make_org_key (str_or_unknown (organization row)) (sticker_id row))
               acc'
             = Some {| od_coords := pt;
                       od_org_name := str_or_unknown (organization row);
                       od_sticker_id := sticker_id row;
                       od_topic := str_or_unknown (topic row) |})
  /\ str_or_unknown CNaN = "Unknown"
  /\ (forall c, c <> CNaN -> str_or_unknown c = py_str c)
  /\ (exists org_points,
        org_points_of general_df = Ok org_points
        /\ forall row pt,
             In row general_df ->
             resolve (organization_location_coordinates row) = Some pt ->
             dict_mem String.eqb
               (make_org_key (str_or_unknown (organization row)) (sticker_id row))
               org_points = true).
Proof.
  split; [|split; [|split; [|split]]].
  - intros acc row H. rewrite org_point_step_resolve.
    assert (Hres : resolve (organization_location_coordinates row) = None).
    { destruct H as [->|[->|H]]; [reflexivity|reflexivity|exact H]. }
    now rewrite Hres.
  - intros acc row pt Hres. rewrite org_point_step_resolve, Hres.
    destruct (is_NA (organization_location_coordinates row)) eqn:Hna.
    + rewrite (resolve_NA _ Hna) in Hres. discriminate.
    + eexists. split; [reflexivity|]. apply dict_get_set_same.
  - reflexivity.
  - intros [|s|z] H; [now elim H|reflexivity|reflexivity].
  - destruct (org_points_loop general_df []) as [org_points Hrun].
    exists org_points. split; [exact Hrun|].
    intros row pt Hin Hres.
    exact (org_points_has_key _ _ _ _ _ Hrun Hin Hres).
Qed.

(** ** The link resolver *)

Lemma connections_of_row_pairs (sticker_points : dict cell point)
  (row : sticker_row) (org_points : dict string org_data) :
  Forall2 (connection_of_pair sticker_points)
    (filter (is_match sticker_points) (map (pair row) org_points))
    (connections_of_row sticker_points org_points row).
Proof.
  unfold connections_of_row.
  induction org_points as [|[key od] t IH]; simpl; [constructor|].
  unfold is_match at 1. unfold dict_mem. simpl.
  destruct (cell_eqb (od_sticker_id od) (sticker_ID row)); simpl; [|exact IH].
  destruct (dict_get cell_eqb (sticker_location row) sticker_points)
    as [c|] eqn:Hget; simpl; [|exact IH].
  constructor; [|exact IH].
  unfold connection_of_pair. simpl. now rewrite Hget.
Qed.

Lemma connections_of_pairs (sticker_df : list sticker_row)
  (sticker_points : dict cell point) (org_points : dict string org_data) :
  Forall2 (connection_of_pair sticker_points)
    (matching_pairs sticker_df sticker_points org_points)
    (connections_of sticker_df sticker_points org_points).
Proof.
  unfold matching_pairs, connections_of.
  induction sticker_df as [|row t IH]; simpl; [constructor|].
  rewrite filter_app. apply Forall2_app; [|exact IH].
  apply connections_of_row_pairs.
Qed.

(** C4: the connections are, in order, one for each pair of a sticker row
    and an organization record that bear the same linking identifier and
    whose sticker location name is in the location mapping; a connection
    carries both endpoints' coordinates and the organization's key, name and
    topic. So their number is the number of such pairs: several
    organization records with one identifier give one connection each, as
    for the one sticker row and two records of the example. *)
Theorem connections_are_matching_pairs (sticker_df : list sticker_row)
  (sticker_points : dict cell point) (org_points : dict string org_data) :
  Forall2 (connection_of_pair sticker_points)
    (matching_pairs sticker_df sticker_points org_points)
    (connections_of sticker_df sticker_points org_points)
  /\ List.length (connections_of sticker_df sticker_points org_points)
     = List.length (matching_pairs sticker_df sticker_points org_points)
  /\ (forall pt c1 t1 c2 t2,
        List.length
          (connections_of [mk_sticker_row (CInt 7) (CStr "A") (CStr "1,1")]
             [(CStr "A", pt)]
             [("x_7", mk_org_data c1 "x" (CInt 7) t1);
              ("y_7", mk_org_data c2 "y" (CInt 7) t2)]) = 2).
Proof.
  split; [apply connections_of_pairs|]. split.
  - symmetry. apply (Forall2_length (connections_of_pairs _ _ _)).
  - intros pt c1 t1 c2 t2. reflexivity.
Qed.

(** ** The map centre *)

Lemma true_div_mean (xs : list float) :
  xs <> [] -> true_div (py_sum xs) (List.length xs) = Ok (mean xs).
Proof.
  destruct xs as [|x t]; [now intros H|]. intros _. reflexivity.
Qed.





(** ** The pie frame *)

(** C5: the frame of the pie chart, with the threshold 3. When some topic
    has a count below 3, the frame is the rows with count 3 or more, as
    they were and in their order, followed by one row ["Other"] whose count
    is the sum of the counts below 3; when no topic has a count below 3 the
    frame is the input and no row is added. The two examples of the
    specification follow. *)
Theorem pie_frame_other (topic_df : counts) :
  threshold = 3
  /\ ((exists r, In r topic_df /\ snd r < 3) ->
      pie_frame topic_df
      = filter (fun r => 3 <=? snd r) topic_df
        ++ [("Other", sum_counts (filter (fun r => snd r <? 3) topic_df))])
  /\ ((forall r, In r topic_df -> 3 <= snd r) -> pie_frame topic_df = topic_df)
  /\ pie_frame [("a", 5); ("b", 2); ("c", 1)] = [("a", 5); ("Other", 3)]
  /\ pie_frame [("a", 5); ("b", 4)] = [("a", 5); ("b", 4)].
Proof.
  split; [reflexivity|]. split; [|split; [|split; reflexivity]].
  - intros (r & Hin & Hlt). unfold pie_frame, threshold.
    destruct (filter (fun r0 => snd r0 <? 3) topic_df) eqn:E; [|reflexivity].
    assert (H : In r (filter (fun r0 => snd r0 <? 3) topic_df)).
    { apply filter_In. split; [exact Hin|]. now apply Nat.ltb_lt. }
    rewrite E in H. destruct H.
  - intros H. unfold pie_frame, threshold.
    destruct (filter (fun r0 => snd r0 <? 3) topic_df) as [|r l] eqn:E;
      [reflexivity|].
    assert (Hr : In r (filter (fun r0 => snd r0 <? 3) topic_df))
      by (rewrite E; now left).
    apply filter_In in Hr as [Hin Hlt]. apply Nat.ltb_lt in Hlt.
    specialize (H r Hin). lia.
Qed.

(** ** Sorting by count *)

Section InsertionSortLemmas.
Context {A : Type} (leb : A -> A -> bool).

Lemma insert_sorted_perm (x : A) (l : list A) :
  Permutation (x :: l) (insert_sorted leb x l).
Proof.
  induction l as [|y t IH]; simpl; [reflexivity|].
  destruct (leb x y); [reflexivity|].
  rewrite perm_swap. now constructor.
Qed.

Lemma isort_perm (l : list A) : Permutation l (isort leb l).
Proof.
  induction l as [|x t IH]; simpl; [constructor|].
  rewrite <- insert_sorted_perm. now constructor.
Qed.

Lemma isort_In (x : A) (l : list A) : In x (isort leb l) <-> In x l.
Proof.
  split; apply Permutation_in;
    [apply Permutation_sym|]; apply isort_perm.
Qed.

Lemma isort_NoDup (l : list A) : NoDup l -> NoDup (isort leb l).
Proof. apply Permutation_NoDup, isort_perm. Qed.
End InsertionSortLemmas.

Lemma insert_count_ge_descending (x : string * nat) (l : counts) :
  descending l -> descending (insert_sorted count_ge x l).
Proof.
  unfold descending.
  induction l as [|y t IH]; simpl; intros H.
  - repeat constructor.
  - unfold count_ge at 1. destruct (snd y <=? snd x) eqn:E.
    + apply Nat.leb_le in E. constructor; [exact H|].
      constructor; [exact E|].
      apply StronglySorted_inv in H as [_ H].
      eapply Forall_impl; [|exact H]. simpl. intros a Ha. lia.
    + apply Nat.leb_gt in E.
      apply StronglySorted_inv in H as [Ht Hy].
      constructor; [now apply IH|].
      apply (Permutation_Forall (insert_sorted_perm count_ge x t)).
      constructor; [lia|exact Hy].
Qed.

Lemma isort_count_ge_descending (l : counts) : descending (isort count_ge l).
Proof.
  induction l as [|x t IH]; simpl; [constructor|].
  now apply insert_count_ge_descending.
Qed.

Lemma stable_sort_desc_ok : sorter_ok stable_sort_desc.
Proof.
  intros l. split; [apply isort_perm|apply isort_count_ge_descending].
Qed.

(** Insertion keeps the rows of each count in their order. *)
Lemma insert_count_ge_stable (c : nat) (x : string * nat) (l : counts) :
  filter (fun r => snd r =? c) (insert_sorted count_ge x l)
  = filter (fun r => snd r =? c) (x :: l).
Proof.
  induction l as [|y t IH]; [reflexivity|].
  simpl insert_sorted. unfold count_ge at 1.
  destruct (snd y <=? snd x) eqn:E; [reflexivity|].
  apply Nat.leb_gt in E.
  change (filter (fun r => snd r =? c) (y :: insert_sorted count_ge x t))
    with (if snd y =? c
          then y :: filter (fun r => snd r =? c) (insert_sorted count_ge x t)
          else filter (fun r => snd r =? c) (insert_sorted count_ge x t)).
  rewrite IH. simpl.
  destruct (snd x =? c) eqn:Ex, (snd y =? c) eqn:Ey; try reflexivity.
  apply Nat.eqb_eq in Ex, Ey. lia.
Qed.

Lemma stable_sort_desc_stable (c : nat) (l : counts) :
  filter (fun r => snd r =? c) (stable_sort_desc l)
  = filter (fun r => snd r =? c) l.
Proof.
  unfold stable_sort_desc.
  induction l as [|x t IH]; [reflexivity|].
  simpl isort. rewrite insert_count_ge_stable. simpl. now rewrite IH.
Qed.

(** Two rows of a table sorted by count are never out of order, so a table
    whose counts all differ has one sorted arrangement only. *)
Lemma descending_unique (l l' : counts) :
  StronglySorted (fun a b => snd b < snd a) l ->
  Permutation l l' -> descending l' -> l' = l.
Proof.
  revert l'. induction l as [|a t IH]; intros l' Hs Hp Hd.
  - now apply Permutation_nil in Hp.
  - destruct l' as [|b t'].
    + apply Permutation_sym, Permutation_nil in Hp. discriminate.
    + apply StronglySorted_inv in Hs as [Hst Ha].
      apply StronglySorted_inv in Hd as [Hdt Hb].
      assert (E : b = a).
      { assert (Hin : In b (a :: t))
          by (apply (Permutation_in _ (Permutation_sym Hp)); now left).
        destruct Hin as [E|Hin]; [now symmetry|].
        assert (Hlt : snd b < snd a)
          by (rewrite Forall_forall in Ha; exact (Ha _ Hin)).
        assert (Hin' : In a (b :: t'))
          by (apply (Permutation_in _ Hp); now left).
        destruct Hin' as [E|Hin']; [exact E|].
        rewrite Forall_forall in Hb. specialize (Hb _ Hin'). lia. }
      subst b. f_equal.
      apply IH; [exact Hst| |exact Hdt].
      now apply Permutation_cons_inv in Hp.
Qed.

(** ** Counting *)

Lemma filter_filter_and {A : Type} (p q : A -> bool) (l : list A) :
  filter p (filter q l) = filter (fun x => q x && p x) l.
Proof.
  induction l as [|x t IH]; simpl; [reflexivity|].
  destruct (q x); simpl; [|exact IH].
  destruct (p x); now rewrite IH.
Qed.

Lemma filter_comm {A : Type} (p q : A -> bool) (l : list A) :
  filter p (filter q l) = filter q (filter p l).
Proof.
  rewrite !filter_filter_and. apply filter_ext.
  intros x. apply andb_comm.
Qed.

Section Unique.
Context {A : Type} (eqb : A -> A -> bool).
Hypothesis eqb_spec : forall a b, eqb a b = true <-> a = b.

Lemma unique_In (x : A) (l : list A) : In x (unique eqb l) <-> In x l.
Proof.
  induction l as [|y t IH]; simpl; [reflexivity|].
  rewrite filter_In, IH. split.
  - intros [H|[H _]]; [now left|now right].
  - intros [H|H]; [now left|].
    destruct (eqb y x) eqn:E.
    + left. now apply eqb_spec.
    + right. now split.
Qed.

Lemma unique_NoDup (l : list A) : NoDup (unique eqb l).
Proof.
  induction l as [|y t IH]; simpl; constructor.
  - rewrite filter_In. intros [_ H].
    assert (E : eqb y y = true) by now apply eqb_spec.
    rewrite E in H. discriminate.
  - now apply NoDup_filter.
Qed.

Lemma unique_filter (p : A -> bool) (l : list A) :
  unique eqb (filter p l) = filter p (unique eqb l).
Proof.
  induction l as [|x t IH]; simpl; [reflexivity|].
  destruct (p x) eqn:Px; simpl.
  - rewrite IH. f_equal. apply filter_comm.
  - rewrite IH, filter_filter_and. apply filter_ext_in.
    intros y _. destruct (eqb x y) eqn:E; simpl; [|reflexivity].
    apply eqb_spec in E. subst y. now rewrite Px.
Qed.
End Unique.

Lemma count_str_cons (t x : string) (l : list string) :
  count_str t (x :: l) = (if String.eqb t x then 1 else 0) + count_str t l.
Proof.
  unfold count_str. simpl. now destruct (String.eqb t x).
Qed.

Lemma dict_get_keys {V : Type} (k : string) (d : dict string V) :
  dict_get String.eqb k d = None <-> ~ In k (keys d).
Proof.
  induction d as [|[k' v] t IH]; simpl; [tauto|].
  destruct (String.eqb k' k) eqn:E.
  - apply String.eqb_eq in E. split; [discriminate|]. intros H. elim H. now left.
  - apply String.eqb_neq in E. rewrite IH. tauto.
Qed.

(** Adding one to the count of a label that is present. *)
Lemma dict_set_incr (x : string) (n : nat) (c : counts) :
  NoDup (keys c) ->
  dict_get String.eqb x c = Some n ->
  dict_set String.eqb x (S n) c
  = map (fun r => if String.eqb (fst r) x then (fst r, S (snd r)) else r) c.
Proof.
  induction c as [|[k v] t IH]; simpl; [discriminate|].
  intros Hnd Hget. apply NoDup_cons_iff in Hnd as [Hk Hnd].
  destruct (String.eqb k x) eqn:E; simpl.
  - injection Hget as ->. f_equal.
    apply String.eqb_eq in E. subst k.
    symmetry. etransitivity; [|apply map_id]. apply map_ext_in.
    intros [k' v'] Hin. simpl.
    destruct (String.eqb k' x) eqn:E'; [|reflexivity].
    apply String.eqb_eq in E'. subst k'.
    elim Hk. apply (in_map fst) in Hin. exact Hin.
  - f_equal. now apply IH.
Qed.

Lemma counter_loop (xs : list string) :
  forall acc : counts,
    NoDup (keys acc) ->
    fold_left counter_incr xs acc
    = map (fun r => (fst r, snd r + count_str (fst r) xs)) acc
      ++ map (fun t => (t, count_str t xs))
           (unique String.eqb
              (filter (fun x => negb (dict_mem String.eqb x acc)) xs)).
Proof.
  induction xs as [|x t IH]; intros acc Hnd.
  - simpl. rewrite app_nil_r. symmetry. etransitivity; [|apply map_id].
    apply map_ext. intros [k v]. simpl. f_equal. unfold count_str. simpl. lia.
  - simpl fold_left. unfold counter_incr at 2.
    destruct (dict_get String.eqb x acc) as [n|] eqn:Hget.
    + rewrite (dict_set_incr _ _ _ Hnd Hget).
      set (acc' := map _ acc).
      assert (Hkeys : keys acc' = keys acc).
      { unfold acc', keys. rewrite map_map. apply map_ext.
        intros [k v]. simpl. now destruct (String.eqb k x). }
      assert (Hmem : forall y, dict_mem String.eqb y acc'
                               = dict_mem String.eqb y acc).
      { intros y. unfold dict_mem.
        destruct (dict_get String.eqb y acc) eqn:E1,
                 (dict_get String.eqb y acc') eqn:E2; try reflexivity.
        - apply dict_get_keys in E2. rewrite Hkeys in E2.
          apply dict_get_keys in E2. congruence.
        - apply dict_get_keys in E1. rewrite <- Hkeys in E1.
          apply dict_get_keys in E1. congruence. }
      rewrite IH by (rewrite Hkeys; exact Hnd).
      f_equal.
      * unfold acc'. rewrite map_map. apply map_ext.
        intros [k v]. simpl. rewrite count_str_cons.
        destruct (String.eqb k x); simpl; f_equal; lia.
      * simpl filter. unfold dict_mem at 2. rewrite Hget. simpl.
        rewrite (filter_ext _ _ (fun y => f_equal negb (Hmem y))).
        apply map_ext_in. intros y Hy.
        apply -> (unique_In _ String.eqb_eq) in Hy.
        apply filter_In in Hy as [_ Hy].
        rewrite count_str_cons.
        destruct (String.eqb y x) eqn:E; [|reflexivity].
        apply String.eqb_eq in E. subst y.
        unfold dict_mem in Hy. rewrite Hget in Hy. discriminate.
    + assert (Hx : ~ In x (keys acc)) by now apply dict_get_keys.
      rewrite IH by (rewrite keys_app; now apply NoDup_snoc).
      rewrite map_app. simpl map at 2. rewrite <- app_assoc.
      f_equal.
      * apply map_ext_in. intros [k v] Hin. simpl. rewrite count_str_cons.
        destruct (String.eqb k x) eqn:E; [|reflexivity].
        apply String.eqb_eq in E. subst k.
        elim Hx. apply (in_map fst) in Hin. exact Hin.
      * simpl filter. unfold dict_mem at 2. rewrite Hget. simpl.
        rewrite count_str_cons, String.eqb_refl. simpl. f_equal.
        rewrite <- (unique_filter _ String.eqb_eq).
        rewrite filter_filter_and.
        assert (Hf : forall y,
                   negb (dict_mem String.eqb y (acc ++ [(x, 1)]))
                   = negb (dict_mem String.eqb y acc)
                     && negb (String.eqb x y)).
        { intros y. unfold dict_mem. rewrite dict_get_app. simpl.
          destruct (dict_get String.eqb y acc); [reflexivity|].
          now destruct (String.eqb x y). }
        rewrite (filter_ext _ _ Hf).
        apply map_ext_in. intros y Hy.
        apply -> (unique_In _ String.eqb_eq) in Hy.
        apply filter_In in Hy as [_ Hy].
        apply andb_true_iff in Hy as [_ Hy].
        rewrite count_str_cons, String.eqb_sym.
        now destruct (String.eqb x y).
Qed.

(** [Counter] lists the distinct labels in the order of their first
    occurrence, each with the number of its occurrences. *)
Lemma Counter_first_seen (xs : list string) :
  Counter xs = map (fun t => (t, count_str t xs)) (unique String.eqb xs).
Proof.
  unfold Counter. rewrite counter_loop by constructor. simpl.
  do 2 f_equal. induction xs as [|x t IH]; simpl; now f_equal.
Qed.

Lemma Counter_keys (xs : list string) :
  keys (Counter xs) = unique String.eqb xs.
Proof.
  rewrite Counter_first_seen. unfold keys. rewrite map_map. simpl.
  apply map_id.
Qed.

(** ** The topic aggregator *)

Lemma descending_strict (l : counts) :
  descending l -> NoDup (map snd l) ->
  StronglySorted (fun a b => snd b < snd a) l.
Proof.
  unfold descending. induction l as [|a t IH]; simpl; intros Hd Hn.
  - constructor.
  - apply StronglySorted_inv in Hd as [Hd Ha].
    apply NoDup_cons_iff in Hn as [Hna Hn].
    constructor; [now apply IH|].
    rewrite Forall_forall in *. intros b Hb.
    specialize (Ha b Hb).
    assert (snd b <> snd a).
    { intros E. apply Hna. rewrite <- E. now apply in_map. }
    lia.
Qed.

Lemma distinct_counts_one_order (s1 s2 : sorter) (l : counts) :
  sorter_ok s1 -> sorter_ok s2 -> NoDup (map snd l) -> s1 l = s2 l.
Proof.
  intros H1 H2 Hn.
  destruct (H1 l) as [Hp1 Hd1]. destruct (H2 l) as [Hp2 Hd2].
  apply descending_unique; [|now rewrite <- Hp2|exact Hd1].
  apply descending_strict; [exact Hd2|].
  apply (Permutation_NoDup (Permutation_map snd Hp2) Hn).
Qed.

Lemma stable_sorter_ties_first_seen (srt : sorter) (topics : list string) :
  sorter_stable srt ->
  ties_first_seen topics (topic_frequencies srt topics).
Proof.
  intros Hst c. unfold topic_frequencies.
  rewrite Hst, Counter_first_seen.
  induction (unique String.eqb topics) as [|t l IH]; simpl; [reflexivity|].
  destruct (count_str t topics =? c); simpl; now rewrite IH.
Qed.

(** X24: whatever sort pandas uses, the topic frame has one row for each
    distinct topic, with the number of its occurrences, and its rows are
    in descending order of count. When all counts differ every sort gives
    the same frame; when the sort keeps rows with equal counts in their
    order, rows with equal counts are in the order of first appearance of
    their topics; and the topics x, y, x, z, y, x give x 3, y 2, z 1 under
    every sort. *)
Theorem topic_frequencies_sorted (srt : sorter) (topics : list string) :
  sorter_ok srt ->
  descending (topic_frequencies srt topics)
  /\ Permutation
       (map (fun t => (t, count_str t topics)) (unique String.eqb topics))
       (topic_frequencies srt topics)
  /\ (NoDup (map snd (Counter topics)) ->
      forall srt', sorter_ok srt' ->
        topic_frequencies srt' topics = topic_frequencies srt topics)
  /\ (sorter_stable srt ->
      ties_first_seen topics (topic_frequencies srt topics))
  /\ topic_frequencies srt ["x"; "y"; "x"; "z"; "y"; "x"]
     = [("x", 3); ("y", 2); ("z", 1)].
Proof.
  intros Hsrt.
  split; [apply Hsrt|]. split; [|split; [|split]].
  - unfold topic_frequencies. rewrite <- Counter_first_seen. apply Hsrt.
  - intros Hn srt' Hsrt'. unfold topic_frequencies.
    now apply distinct_counts_one_order.
  - apply stable_sorter_ties_first_seen.
  - unfold topic_frequencies.
    destruct (Hsrt (Counter ["x"; "y"; "x"; "z"; "y"; "x"])) as [Hp Hd].
    apply descending_unique; [|exact Hp|exact Hd].
    vm_compute. repeat constructor.
Qed.

(** ** The organization-topic matrix *)

Lemma pair_eqb_eq (a b : string * string) : pair_eqb a b = true <-> a = b.
Proof.
  destruct a as [a1 a2], b as [b1 b2]. unfold pair_eqb. simpl.
  rewrite andb_true_iff, !String.eqb_eq. split.
  - now intros [-> ->].
  - intros H. now injection H.
Qed.

Lemma isin_In (l : list string) (x : string) : isin l x = true <-> In x l.
Proof.
  unfold isin. rewrite existsb_exists. split.
  - intros (y & Hy & E). apply String.eqb_eq in E. now subst.
  - intros H. exists x. split; [exact H|apply String.eqb_refl].
Qed.

Lemma isin_ext (l l' : list string) (x : string) :
  (In x l <-> In x l') -> isin l x = isin l' x.
Proof.
  intros H. destruct (isin l x) eqn:E1, (isin l' x) eqn:E2; try reflexivity.
  - apply isin_In, H, isin_In in E1. congruence.
  - apply isin_In, H, isin_In in E2. congruence.
Qed.

Lemma filter_map_comm {A B : Type} (p : B -> bool) (f : A -> B) (l : list A) :
  filter p (map f l) = map f (filter (fun a => p (f a)) l).
Proof.
  induction l as [|x t IH]; simpl; [reflexivity|].
  destruct (p (f x)); simpl; now rewrite IH.
Qed.

Lemma count_pair_cons (k p : string * string) (l : list (string * string)) :
  count_pair k (p :: l) = (if pair_eqb k p then 1 else 0) + count_pair k l.
Proof.
  unfold count_pair. simpl. now destruct (pair_eqb k p).
Qed.

Lemma count_pair_absent (k : string * string) (l : list (string * string)) :
  ~ In k l -> count_pair k l = 0.
Proof.
  induction l as [|p t IH]; [reflexivity|].
  intros H. rewrite count_pair_cons, IH by (intros Hin; apply H; now right).
  destruct (pair_eqb k p) eqn:E; [|reflexivity].
  apply pair_eqb_eq in E. subst p. elim H. now left.
Qed.

Lemma group_keys_In (k : string * string) (pairs : list (string * string)) :
  In k (group_keys pairs) <-> In k pairs.
Proof.
  unfold group_keys. rewrite isort_In. apply (unique_In _ pair_eqb_eq).
Qed.

(** Looking a key up in a frame that holds one row for each key of a
    list. *)
Lemma dict_get_keyed {V : Type} (g : string * string -> V)
  (k : string * string) (l : list (string * string)) :
  dict_get pair_eqb k (map (fun k' => (k', g k')) l)
  = if existsb (fun k' => pair_eqb k' k) l then Some (g k) else None.
Proof.
  induction l as [|k' t IH]; simpl; [reflexivity|].
  destruct (pair_eqb k' k) eqn:E; simpl; [|exact IH].
  apply pair_eqb_eq in E. now subst.
Qed.

Lemma list_sum_map_add {A : Type} (f g : A -> nat) (l : list A) :
  list_sum (map (fun x => f x + g x) l)
  = list_sum (map f l) + list_sum (map g l).
Proof.
  induction l as [|x t IH]; simpl; [reflexivity|]. rewrite IH. lia.
Qed.

Lemma list_sum_indicator (y : string) (n : nat) (l : list string) :
  NoDup l ->
  list_sum (map (fun x => if String.eqb x y then n else 0) l)
  = if isin l y then n else 0.
Proof.
  induction l as [|x t IH]; simpl; [reflexivity|].
  intros H. apply NoDup_cons_iff in H as [Hx Ht].
  rewrite (IH Ht). rewrite (String.eqb_sym y x).
  destruct (String.eqb x y) eqn:E; simpl; [|reflexivity].
  apply String.eqb_eq in E. subst y.
  destruct (isin t x) eqn:Hin; [|lia].
  apply isin_In in Hin. contradiction.
Qed.

(** Every row of the data is counted in exactly one cell of a table whose
    rows and columns are without repetition. *)
Lemma sum_cells_count (index columns : list string)
  (pairs : list (string * string)) :
  NoDup index -> NoDup columns ->
  sum_cells
    (map (fun o => map (fun t => count_pair (o, t) pairs) columns) index)
  = List.length
      (filter (fun p => isin index (fst p) && isin columns (snd p)) pairs).
Proof.
  intros Hi Hc. unfold sum_cells. rewrite map_map.
  induction pairs as [|p ps IH].
  - simpl. induction index as [|o t IHo]; simpl; [reflexivity|].
    apply NoDup_cons_iff in Hi as [_ Hi]. rewrite (IHo Hi).
    rewrite Nat.add_0_r. clear. induction columns; simpl; auto.
  - rewrite (map_ext _
               (fun o =>
                  (if String.eqb o (fst p)
                   then (if isin columns (snd p) then 1 else 0) else 0)
                  + list_sum (map (fun t => count_pair (o, t) ps) columns))).
    + rewrite list_sum_map_add, IH, (list_sum_indicator _ _ _ Hi). simpl.
      destruct (isin index (fst p)), (isin columns (snd p)); simpl; lia.
    + intros o.
      rewrite (map_ext _
                 (fun t =>
                    (if String.eqb t (snd p)
                     then (if String.eqb o (fst p) then 1 else 0) else 0)
                    + count_pair (o, t) ps)).
      * rewrite list_sum_map_add, (list_sum_indicator _ _ _ Hc).
        destruct (String.eqb o (fst p)), (isin columns (snd p)); reflexivity.
      * intros t. rewrite count_pair_cons. unfold pair_eqb. simpl.
        destruct (String.eqb o (fst p)), (String.eqb t (snd p)); reflexivity.
Qed.

Lemma descending_app (a b : counts) :
  descending (a ++ b) ->
  forall x y, In x a -> In y b -> snd y <= snd x.
Proof.
  unfold descending. induction a as [|h t IH]; simpl; intros H x y Hx Hy.
  - destruct Hx.
  - apply StronglySorted_inv in H as [Ht Hh].
    destruct Hx as [<-|Hx]; [|exact (IH Ht x y Hx Hy)].
    rewrite Forall_forall in Hh. apply Hh. apply in_or_app. now right.
Qed.

Lemma Counter_In (x : string * nat) (xs : list string) :
  In x (Counter xs) <-> In (fst x) xs /\ snd x = count_str (fst x) xs.
Proof.
  rewrite Counter_first_seen, in_map_iff. split.
  - intros (t & <- & Ht). simpl.
    apply -> (unique_In _ String.eqb_eq) in Ht. now split.
  - intros [Hin Hc]. exists (fst x). split.
    + destruct x as [k n]. simpl in *. now subst.
    + now apply <- (unique_In _ String.eqb_eq).
Qed.

(** The selected organizations: at most ten, all of them when there are
    ten or fewer, without repetition, and none of those left out has more
    rows than one of those selected. *)
Lemma top_orgs_spec (srt : sorter) (pairs : list (string * string)) :
  sorter_ok srt ->
  let orgs := map fst pairs in
  let top := top_orgs_of srt pairs in
  List.length top = Nat.min 10 (List.length (unique String.eqb orgs))
  /\ NoDup top
  /\ (forall o, In o top -> In o orgs)
  /\ (forall o o',
        In o top -> In o' orgs -> ~ In o' top ->
        count_str o' orgs <= count_str o orgs).
Proof.
  intros Hsrt orgs top. unfold top, top_orgs_of, nlargest. fold orgs.
  set (T := stable_sort_desc (srt (Counter orgs))).
  assert (Hp : Permutation (Counter orgs) T).
  { unfold T. etransitivity; [apply Hsrt|apply stable_sort_desc_ok]. }
  assert (Hd : descending T) by apply stable_sort_desc_ok.
  assert (Hk : Permutation (unique String.eqb orgs) (map fst T)).
  { rewrite <- Counter_keys. apply (Permutation_map fst Hp). }
  assert (Hsplit : T = firstn 10 T ++ skipn 10 T)
    by (symmetry; apply firstn_skipn).
  split; [|split; [|split]].
  - rewrite length_map, length_firstn. f_equal.
    rewrite <- (Permutation_length Hp), Counter_first_seen.
    apply length_map.
  - assert (Hn : NoDup (map fst T)).
    { apply (Permutation_NoDup Hk), (unique_NoDup _ String.eqb_eq). }
    rewrite Hsplit, map_app in Hn. exact (NoDup_app_remove_r _ _ Hn).
  - intros o Ho. apply -> (unique_In _ String.eqb_eq).
    apply (Permutation_in _ (Permutation_sym Hk)).
    rewrite Hsplit, map_app. apply in_or_app. now left.
  - intros o o' Ho Ho' Hno.
    apply in_map_iff in Ho as (x & <- & Hx).
    assert (Hx' : In x (Counter orgs)).
    { apply (Permutation_in _ (Permutation_sym Hp)).
      rewrite Hsplit. apply in_or_app. now left. }
    apply Counter_In in Hx' as [_ Hcx]. rewrite <- Hcx.
    assert (Hy : In (o', count_str o' orgs) T).
    { apply (Permutation_in _ Hp), Counter_In. now split. }
    rewrite Hsplit in Hy. apply in_app_or in Hy as [Hy|Hy].
    + elim Hno. apply (in_map fst) in Hy. exact Hy.
    + rewrite Hsplit in Hd.
      exact (descending_app _ _ Hd _ _ Hx Hy).
Qed.

Lemma selected_keys_In (top : list string) (pairs : list (string * string))
  (k : string * string) :
  In k (selected_keys top pairs) <-> In k pairs /\ In (fst k) top.
Proof.
  unfold selected_keys. rewrite filter_In, group_keys_In, isin_In. tauto.
Qed.

Lemma organization_topics_unfold (srt : sorter) (df : list general_row) :
  let pairs := cleaned_pairs df in
  let keys' := selected_keys (top_orgs_of srt pairs) pairs in
  let index := isort String.leb (unique String.eqb (map fst keys')) in
  let columns := isort String.leb (unique String.eqb (map snd keys')) in
  organization_topics srt df
  = {| pv_index := index;
       pv_columns := columns;
       pv_cells :=
         map (fun o =>
                map (fun t =>
                       if existsb (fun k' => pair_eqb k' (o, t)) keys'
                       then count_pair (o, t) pairs else 0)
                  columns)
           index |}.
Proof.
  intros pairs keys' index columns.
  unfold organization_topics, groupby_size. fold pairs.
  rewrite filter_map_comm. simpl. fold (selected_keys (top_orgs_of srt pairs) pairs).
  fold keys'. unfold pivot_table. rewrite !map_map. simpl.
  fold index. fold columns. f_equal.
  apply map_ext. intros o. apply map_ext. intros t.
  rewrite (dict_get_keyed (fun k => count_pair k pairs)).
  now destruct (existsb (fun k' => pair_eqb k' (o, t)) keys').
Qed.

(** X25: whatever sort pandas uses, at most ten organizations are
    selected, all of them when there are ten or fewer, and none left out
    has more rows than one selected. The matrix has one row for each
    selected organization and no other row, one column for each topic that
    occurs with a selected organization, and in each cell the number of
    data rows with that organization and topic, zero when there is none;
    its cells add up to the number of data rows whose organization is
    selected. *)
Theorem organization_topics_matrix (srt : sorter) (df : list general_row) :
  sorter_ok srt ->
  let pairs := cleaned_pairs df in
  let orgs := map fst pairs in
  let top := top_orgs_of srt pairs in
  let pv := organization_topics srt df in
  (List.length top = Nat.min 10 (List.length (unique String.eqb orgs))
   /\ NoDup top
   /\ (forall o, In o top -> In o orgs))
  /\ (forall o o',
        In o top -> In o' orgs -> ~ In o' top ->
        count_str o' orgs <= count_str o orgs)
  /\ Permutation (pv_index pv) top
  /\ (NoDup (pv_columns pv)
      /\ forall t, In t (pv_columns pv) <-> exists o, In o top /\ In (o, t) pairs)
  /\ pv_cells pv
     = map (fun o => map (fun t => count_pair (o, t) pairs) (pv_columns pv))
         (pv_index pv)
  /\ sum_cells (pv_cells pv)
     = List.length (filter (fun p => isin top (fst p)) pairs).
Proof.
  intros Hsrt pairs orgs top pv.
  destruct (top_orgs_spec srt pairs Hsrt) as (Hlen & Hnd & Hsub & Hmax).
  fold orgs top in Hlen, Hnd, Hsub, Hmax.
  pose proof (organization_topics_unfold srt df) as Hpv.
  simpl in Hpv. fold pairs top pv in Hpv.
  set (keys' := selected_keys top pairs) in *.
  set (index := isort String.leb (unique String.eqb (map fst keys'))) in *.
  set (columns := isort String.leb (unique String.eqb (map snd keys'))) in *.
  assert (Hidx : forall o, In o index <-> In o top).
  { intros o. unfold index.
    rewrite isort_In, (unique_In _ String.eqb_eq), in_map_iff. split.
    - intros (k & <- & Hk). now apply selected_keys_In in Hk.
    - intros Ho. specialize (Hsub o Ho). unfold orgs in Hsub.
      apply in_map_iff in Hsub as (k & <- & Hk).
      exists k. split; [reflexivity|]. apply selected_keys_In. now split. }
  assert (Hcol : forall t,
             In t columns <-> exists o, In o top /\ In (o, t) pairs).
  { intros t. unfold columns.
    rewrite isort_In, (unique_In _ String.eqb_eq), in_map_iff. split.
    - intros ([o t'] & <- & Hk). apply selected_keys_In in Hk as [H1 H2].
      now exists o.
    - intros (o & Ho & Hin). exists (o, t). split; [reflexivity|].
      apply selected_keys_In. now split. }
  assert (Hndi : NoDup index)
    by apply isort_NoDup, (unique_NoDup _ String.eqb_eq).
  assert (Hndc : NoDup columns)
    by apply isort_NoDup, (unique_NoDup _ String.eqb_eq).
  assert (Hcells :
            pv_cells pv
            = map (fun o => map (fun t => count_pair (o, t) pairs) columns)
                index).
  { rewrite Hpv. simpl. apply map_ext_in. intros o Ho.
    apply map_ext. intros t.
    destruct (existsb (fun k' => pair_eqb k' (o, t)) keys') eqn:E;
      [reflexivity|].
    symmetry. apply count_pair_absent. intros Hin.
    assert (Hk : In (o, t) keys').
    { apply selected_keys_In. split; [exact Hin|]. now apply Hidx. }
    assert (Ht : existsb (fun k' => pair_eqb k' (o, t)) keys' = true).
    { apply existsb_exists. exists (o, t). split; [exact Hk|].
      now apply pair_eqb_eq. }
    congruence. }
  rewrite Hcells. rewrite Hpv. simpl.
  split; [now repeat split|]. split; [exact Hmax|]. split.
  - apply NoDup_Permutation; assumption.
  - split; [now split|]. split; [reflexivity|].
    rewrite (sum_cells_count _ _ _ Hndi Hndc).
    f_equal. apply filter_ext_in. intros [o t] Hin. simpl.
    rewrite (isin_ext index top o (Hidx o)).
    destruct (isin top o) eqn:Ho; [|reflexivity]. simpl.
    apply isin_In. apply Hcol. exists o. split; [|exact Hin].
    now apply isin_In.
Qed.

(** ** Rendering *)

Lemma print_rows_ok (rows : counts) (w : world) :
  print_rows rows w
  = (Ok tt, {| stdout := stdout w ++ map line_of_row rows; files := files w |}).
Proof.
  revert w. induction rows as [|[t n] rest IH]; intros w.
  - simpl. unfold ret. rewrite app_nil_r. now destruct w.
  - simpl. unfold bind_io, print. rewrite IH. simpl.
    now rewrite <- app_assoc.
Qed.

Lemma create_bar_chart_ok (E : env) (topic_df : counts) (out : string)
  (w : world) :
  render_fault E out = None ->
  create_bar_chart E topic_df out w
  = (Ok tt, {| stdout := stdout w ++ [("Bar chart saved as " ++ out)%string];
               files := files w ++ [(out, BarChart topic_df)] |}).
Proof.
  intros H. unfold create_bar_chart, bind_io, render, print. now rewrite H.
Qed.










(** ** The theorems at concrete inputs *)

Lemma extract_coordinates_cases_witness :
  "1, 2, 3" <> "N/A"
  /\ extract_coordinates (CStr "1, 2, 3")
     = Ok (Some (Float.of_Z 1), Some (Float.of_Z 2)).
Proof.
  split; [discriminate|].
  apply (proj1 (proj2 (proj2 (proj2 extract_coordinates_cases)))
           "1, 2, 3" "1" " 2" [" 3"]).
  - discriminate.
  - reflexivity.
  - vm_compute. reflexivity.
  - vm_compute. reflexivity.
Defined.

Lemma org_records_dropped_or_kept_witness :
  exists acc',
    org_point_step [] (mk_general_row (CInt 4) CNaN (CStr "1, 2") CNaN)
    = Ok acc'
    /\ dict_get String.eqb "Unknown_4" acc'
       = Some {| od_coords := (Float.of_Z 1, Float.of_Z 2);
                 od_org_name := "Unknown";
                 od_sticker_id := CInt 4;
                 od_topic := "Unknown" |}.
Proof.
  apply (proj1 (proj2 (org_records_dropped_or_kept []))
           [] (mk_general_row (CInt 4) CNaN (CStr "1, 2") CNaN)
           (Float.of_Z 1, Float.of_Z 2)).
  vm_compute. reflexivity.
Defined.


Lemma pie_frame_other_witness :
  pie_frame [("a", 5); ("b", 2); ("c", 1)]
  = filter (fun r => 3 <=? snd r) [("a", 5); ("b", 2); ("c", 1)]
    ++ [("Other",
         sum_counts (filter (fun r => snd r <? 3) [("a", 5); ("b", 2); ("c", 1)]))].
Proof.
  apply (proj1 (proj2 (pie_frame_other [("a", 5); ("b", 2); ("c", 1)]))).
  exists ("b", 2). split; [simpl; tauto|simpl; lia].
Defined.

Lemma topic_frequencies_sorted_witness :
  descending (topic_frequencies stable_sort_desc ["b"; "a"; "b"; "c"]).
Proof.
  exact (proj1 (topic_frequencies_sorted stable_sort_desc
                  ["b"; "a"; "b"; "c"] stable_sort_desc_ok)).
Defined.

Lemma organization_topics_matrix_witness :
  sum_cells (pv_cells (organization_topics stable_sort_desc eighteen_orgs))
  = List.length
      (filter
         (fun p =>
            isin (top_orgs_of stable_sort_desc (cleaned_pairs eighteen_orgs))
              (fst p))
         (cleaned_pairs eighteen_orgs)).
Proof.
  exact (proj2 (proj2 (proj2 (proj2 (proj2
           (organization_topics_matrix stable_sort_desc eighteen_orgs
              stable_sort_desc_ok)))))).
Defined.


(** ** The order of the location mapping and the path *)

Lemma sticker_points_loop_order (rows : list sticker_row) :
  forall (seen : list cell) (acc : dict cell point),
    (forall k, In k (keys acc) -> In k seen) ->
    foldM sticker_point_step
      (drop_duplicates_from sticker_location seen rows) acc
    = Ok (acc
          ++ flat_map located
               (drop_duplicates_from sticker_location seen rows)).
Proof.
  induction rows as [|r t IH]; intros seen acc Hkeys; simpl.
  - now rewrite app_nil_r.
  - destruct (existsb (dup_eqb (sticker_location r)) seen) eqn:Hseen.
    + now apply IH.
    + simpl. rewrite sticker_point_step_resolve. simpl.
      assert (Hfresh : dict_get cell_eqb (sticker_location r) acc = None).
      { apply dict_get_absent. intros k Hk.
        destruct (cell_eqb k (sticker_location r)) eqn:E; [|reflexivity].
        apply cell_eqb_eq in E as [E _]. subst k.
        apply Hkeys, seen_In in Hk. congruence. }
      assert (Hloc :
                located r
                = if notna (sticker_location r) then
                    match resolve (sticker_location_coordinates r) with
                    | Some pt => [(sticker_location r, pt)]
                    | None => []
                    end
                  else []) by reflexivity.
      rewrite Hloc. clear Hloc.
      destruct (notna (sticker_location r)).
      * destruct (resolve (sticker_location_coordinates r)) as [pt|].
        -- rewrite (dict_set_fresh _ _ _ _ Hfresh), IH.
           ++ now rewrite <- app_assoc.
           ++ intros k Hk. rewrite keys_app in Hk.
              apply in_app_or in Hk as [Hk|[<-|[]]]; [right|left]; auto.
        -- rewrite IH; [reflexivity|]. intros k Hk. right. auto.
      * rewrite IH; [reflexivity|]. intros k Hk. right. auto.
Qed.

(** X1: the location mapping lists, in the order of first appearance, the
    names whose first row has a name and a coordinate that resolves, each
    with that coordinate: no assignment in the loop replaces an earlier
    entry. *)
Theorem sticker_points_in_order (sticker_df : list sticker_row) :
  sticker_points_of sticker_df
  = Ok (flat_map located (drop_duplicates sticker_location sticker_df)).
Proof.
  unfold sticker_points_of, drop_duplicates.
  rewrite sticker_points_loop_order; [reflexivity|]. intros k [].
Qed.

Lemma path_edges_ends {A : Type} (l : list A) :
  map fst (path_edges l) = removelast l /\ map snd (path_edges l) = tl l.
Proof.
  induction l as [|a [|b t] IH]; [now split|now split|].
  destruct IH as [IH1 IH2].
  change (path_edges (a :: b :: t)) with ((a, b) :: path_edges (b :: t)).
  split.
  - rewrite map_cons, IH1. reflexivity.
  - rewrite map_cons, IH2. reflexivity.
Qed.

(** X2: the edges added to the graph form one path through the points in
    their order: the edges start at every point but the last and end at
    every point but the first, so there is one edge fewer than points and
    none when there are fewer than two points. *)
Theorem path_edges_is_path {A : Type} (points : list A) :
  map fst (path_edges points) = removelast points
  /\ map snd (path_edges points) = tl points
  /\ List.length (path_edges points) = List.length points - 1.
Proof.
  destruct (path_edges_ends points) as [H1 H2].
  split; [exact H1|]. split; [exact H2|].
  rewrite <- (length_map snd), H2. destruct points; simpl; lia.
Qed.

(** ** The two maps *)


Lemma py_min_nonempty (x : float) (t : list float) :
  exists m, py_min (x :: t) = Ok m.
Proof. eexists. reflexivity. Qed.

Lemma py_max_nonempty (x : float) (t : list float) :
  exists m, py_max (x :: t) = Ok m.
Proof. eexists. reflexivity. Qed.

Lemma create_simple_map_basemap (E : env) (sticker_df : list sticker_row)
  (points : dict cell point) (w : world) :
  has_contextily E = true ->
  render_fault E "sticker_locations_map.png" = None ->
  sticker_points_of sticker_df = Ok points ->
  points <> [] ->
  create_simple_map E sticker_df w
  = (Ok points,
     {| stdout := stdout w ++ ["Map created successfully!"];
        files :=
          files w
          ++ [("sticker_locations_map.png",
               StaticMap true points (path_edges (keys points)))] |}).
Proof.
  intros Hc Hr Hrun Hne.
  destruct points as [|[k [lat lon]] t]; [now elim Hne|].
  unfold create_simple_map, try_except_ImportError, bind_io, lift, import,
    render, print, ret, raise.
  rewrite Hrun, Hc, Hr. reflexivity.
Qed.

Lemma create_simple_map_empty (E : env) (sticker_df : list sticker_row)
  (w : world) :
  has_contextily E = true ->
  sticker_points_of sticker_df = Ok [] ->
  create_simple_map E sticker_df w = (Raise ValueError, w).
Proof.
  intros Hc Hrun.
  unfold create_simple_map, try_except_ImportError, bind_io, lift, import,
    ret, raise.
  rewrite Hrun, Hc. reflexivity.
Qed.

(** X3: with contextily installed and no sticker location resolved,
    [create_simple_map] takes the minimum of an empty list: it ends in
    [ValueError], having printed and written nothing. *)
Theorem create_simple_map_no_points (E : env) (sticker_df : list sticker_row)
  (w : world) :
  has_contextily E = true ->
  sticker_points_of sticker_df = Ok [] ->
  create_simple_map E sticker_df w = (Raise ValueError, w).
Proof. exact (create_simple_map_empty E sticker_df w). Qed.

(** X4: with contextily installed, at least one sticker location resolved
    and a rendering that does not fail, [create_simple_map] writes the map
    with a basemap, on it the points of the mapping and the path through
    them, prints that the map was created and returns the mapping. *)
Theorem create_simple_map_with_basemap (E : env)
  (sticker_df : list sticker_row) (points : dict cell point) (w : world) :
  has_contextily E = true ->
  render_fault E "sticker_locations_map.png" = None ->
  sticker_points_of sticker_df = Ok points ->
  points <> [] ->
  create_simple_map E sticker_df w
  = (Ok points,
     {| stdout := stdout w ++ ["Map created successfully!"];
        files :=
          files w
          ++ [("sticker_locations_map.png",
               StaticMap true points (path_edges (keys points)))] |}).
Proof. exact (create_simple_map_basemap E sticker_df points w). Qed.

Lemma map_center_nonempty (sticker_points : dict cell point)
  (org_points : dict string org_data) :
  sticker_points <> [] \/ org_points <> [] ->
  map_center sticker_points org_points
  = Ok (mean (all_lats sticker_points org_points),
        mean (all_lons sticker_points org_points)).
Proof.
  intros H. unfold map_center.
  assert (Hlats : all_lats sticker_points org_points <> []).
  { unfold all_lats, values. destruct H as [H|H].
    - destruct sticker_points; [now elim H|discriminate].
    - destruct org_points; [now elim H|]. simpl. intros E.
      apply app_eq_nil in E as [_ E]. discriminate. }
  assert (Hlons : all_lons sticker_points org_points <> []).
  { unfold all_lons, values. destruct H as [H|H].
    - destruct sticker_points; [now elim H|discriminate].
    - destruct org_points; [now elim H|]. simpl. intros E.
      apply app_eq_nil in E as [_ E]. discriminate. }
  rewrite (true_div_mean _ Hlats), (true_div_mean _ Hlons). reflexivity.
Qed.

Lemma map_center_cases (sticker_points : dict cell point)
  (org_points : dict string org_data) :
  (exists c, map_center sticker_points org_points = Ok c)
  \/ map_center sticker_points org_points = Raise ZeroDivisionError.
Proof.
  destruct sticker_points as [|p t].
  - destruct org_points as [|q u]; [now right|].
    left. eexists. apply map_center_nonempty. right. discriminate.
  - left. eexists. apply map_center_nonempty. left. discriminate.
Qed.

(** What [create_expanded_map] does once folium is imported. *)
Lemma create_expanded_map_with_folium (E : env)
  (sticker_df : list sticker_row) (general_df : list general_row)
  (sticker_points : dict cell point) (org_points : dict string org_data)
  (w : world) :
  has_folium E = true ->
  sticker_points_of sticker_df = Ok sticker_points ->
  org_points_of general_df = Ok org_points ->
  create_expanded_map E sticker_df general_df w
  = match map_center sticker_points org_points with
    | Raise e => (Raise e, w)
    | Ok center =>
        let connections :=
          connections_of sticker_df sticker_points org_points in
        match render_fault E "expanded_network_map.html" with
        | Some ImportError =>
            (Ok false,
             {| stdout :=
                  stdout w
                  ++ ["Error creating interactive map: No module named 'folium'"];
                files := files w |})
        | Some e => (Raise e, w)
        | None =>
            (Ok true,
             {| stdout :=
                  stdout w
                  ++ [created_message sticker_points org_points connections];
                files :=
                  files w
                  ++ [("expanded_network_map.html",
                       InteractiveMap center sticker_points org_points
                         connections)] |})
        end
    end.
Proof.
  intros Hf Hs Ho.
  unfold create_expanded_map, try_except_ImportError, bind_io, lift, import,
    render, print, ret, raise.
  rewrite Hf, Hs, Ho.
  destruct (map_center_cases sticker_points org_points) as [[c Hc]|Hc];
    rewrite Hc; [|reflexivity].
  destruct (render_fault E "expanded_network_map.html") as [[]|]; reflexivity.
Qed.



(** X7: with both optional packages installed, at least one sticker
    location resolved and renderings that do not fail, the map script runs
    to its end, writes the static map and then the interactive map, and
    prints the names of both files. *)
Theorem network_main_complete (E : env) (sticker_df : list sticker_row)
  (general_df : list general_row) (points : dict cell point) (w : world) :
  has_contextily E = true -> has_folium E = true ->
  (forall file, render_fault E file = None) ->
  sticker_points_of sticker_df = Ok points ->
  points <> [] ->
  exists w',
    network_main E sticker_df general_df w = (Ok tt, w')
    /\ map fst (files w')
       = map fst (files w)
         ++ ["sticker_locations_map.png"; "expanded_network_map.html"]
    /\ In "Output files:" (stdout w').
Proof.
  intros Hc Hf Hr Hs Hne.
  destruct (org_points_loop general_df []) as [op Ho].
  unfold network_main, bind_io at 1 2. unfold print at 1.
  rewrite (create_simple_map_basemap E sticker_df points _ Hc (Hr _) Hs Hne).
  unfold bind_io, print.
  rewrite (create_expanded_map_with_folium _ _ _ _ _ _ Hf Hs Ho).
  rewrite (map_center_nonempty points op (or_introl Hne)).
  cbv beta iota zeta. rewrite Hr. cbv beta iota zeta.
  eexists. split; [reflexivity|]. cbn [files stdout]. split.
  - rewrite !map_app. simpl. now rewrite <- app_assoc.
  - do 4 (apply in_or_app; left). apply in_or_app. right. now left.
Qed.

(** ** Organization records under one key *)

Lemma org_point_step_stored (org_points : dict string org_data)
  (row : general_row) :
  org_point_step org_points row
  = Ok (match resolve (organization_location_coordinates row) with
        | Some pt =>
            dict_set String.eqb (org_key_of row) (org_record_of row pt)
              org_points
        | None => org_points
        end).
Proof.
  rewrite org_point_step_resolve.
  destruct (resolve (organization_location_coordinates row)) as [pt|] eqn:Hr;
    [|reflexivity].
  destruct (is_NA (organization_location_coordinates row)) eqn:Hna;
    [|reflexivity].
  rewrite (resolve_NA _ Hna) in Hr. discriminate.
Qed.

Lemma foldM_app {A S : Type} (f : S -> A -> res S) (l1 l2 : list A) (s : S) :
  foldM f (l1 ++ l2) s = (s' <- foldM f l1 s ;; foldM f l2 s').
Proof.
  revert s. induction l1 as [|r t IH]; intros s; simpl; [reflexivity|].
  destruct (f s r) as [s'|e]; simpl; [apply IH|reflexivity].
Qed.

Lemma dict_get_set_other {V : Type} (k k' : string) (v : V)
  (d : dict string V) :
  k <> k' ->
  dict_get String.eqb k (dict_set String.eqb k' v d)
  = dict_get String.eqb k d.
Proof.
  intros Hne. induction d as [|[k0 v0] t IH]; simpl.
  - apply String.eqb_neq in Hne. rewrite String.eqb_sym. now rewrite Hne.
  - destruct (String.eqb k0 k') eqn:E; simpl.
    + apply String.eqb_eq in E. subst k0.
      destruct (String.eqb k' k) eqn:E'; [|reflexivity].
      apply String.eqb_eq in E'. now elim Hne.
    + destruct (String.eqb k0 k); [reflexivity|exact IH].
Qed.

Lemma keys_dict_set {V : Type} (k : string) (v : V) (d : dict string V) :
  keys (dict_set String.eqb k v d)
  = if dict_mem String.eqb k d then keys d else keys d ++ [k].
Proof.
  unfold dict_mem. induction d as [|[k0 v0] t IH]; simpl; [reflexivity|].
  destruct (String.eqb k0 k) eqn:E; simpl; [reflexivity|].
  rewrite IH. now destruct (dict_get String.eqb k t).
Qed.

Lemma dict_set_NoDup {V : Type} (k : string) (v : V) (d : dict string V) :
  NoDup (keys d) -> NoDup (keys (dict_set String.eqb k v d)).
Proof.
  intros H. rewrite keys_dict_set. unfold dict_mem.
  destruct (dict_get String.eqb k d) eqn:E; [exact H|].
  apply NoDup_snoc; [exact H|]. now apply dict_get_keys.
Qed.

Lemma org_points_loop_NoDup (rows : list general_row) :
  forall acc d,
    NoDup (keys acc) -> foldM org_point_step rows acc = Ok d ->
    NoDup (keys d).
Proof.
  induction rows as [|r t IH]; intros acc d Hnd; simpl.
  - intros H. now injection H as <-.
  - rewrite org_point_step_stored. simpl. apply IH.
    destruct (resolve (organization_location_coordinates r));
      [now apply dict_set_NoDup|exact Hnd].
Qed.

Lemma org_points_loop_keeps (rows : list general_row) (key : string) :
  (forall r pt,
     In r rows ->
     resolve (organization_location_coordinates r) = Some pt ->
     org_key_of r <> key) ->
  forall acc d,
    foldM org_point_step rows acc = Ok d ->
    dict_get String.eqb key d = dict_get String.eqb key acc.
Proof.
  induction rows as [|r t IH]; intros Hother acc d; simpl.
  - intros H. now injection H as <-.
  - rewrite org_point_step_stored. simpl. intros Hrun.
    rewrite (IH (fun r' pt Hin => Hother r' pt (or_intror Hin)) _ _ Hrun).
    destruct (resolve (organization_location_coordinates r)) as [pt|] eqn:Hr;
      [|reflexivity].
    apply dict_get_set_other. intros E.
    exact (Hother r pt (or_introl eq_refl) Hr (eq_sym E)).
Qed.

(** X8: the organization records are kept in a dictionary under the key
    made of name and identifier, so no two records share a key, and of the
    rows with one key the last one whose coordinate resolves is the record:
    its coordinate, name and topic replace those of the earlier rows. *)
Theorem org_points_last_row_wins (before_rows after_rows : list general_row)
  (row : general_row) (pt : point) (org_points : dict string org_data) :
  resolve (organization_location_coordinates row) = Some pt ->
  (forall r pt',
     In r after_rows ->
     resolve (organization_location_coordinates r) = Some pt' ->
     org_key_of r <> org_key_of row) ->
  org_points_of (before_rows ++ row :: after_rows) = Ok org_points ->
  NoDup (keys org_points)
  /\ dict_get String.eqb (org_key_of row) org_points
     = Some (org_record_of row pt).
Proof.
  intros Hres Hother Hrun. split.
  - apply (org_points_loop_NoDup (before_rows ++ row :: after_rows) []);
      [constructor|exact Hrun].
  - unfold org_points_of in Hrun. rewrite foldM_app in Hrun.
    destruct (org_points_loop before_rows []) as [d1 H1].
    rewrite H1 in Hrun. simpl in Hrun.
    rewrite org_point_step_stored, Hres in Hrun. simpl in Hrun.
    rewrite (org_points_loop_keeps _ _ Hother _ _ Hrun).
    apply dict_get_set_same.
Qed.

Lemma append_assoc (a b c : string) :
  ((a ++ b) ++ c)%string = (a ++ (b ++ c))%string.
Proof.
  induction a as [|x a IH]; simpl; [reflexivity|]. now rewrite IH.
Qed.

(** X9: the key does not keep the organization name and the identifier
    apart. A name ending in an underscore and some text, with an
    identifier, has the key of the shorter name with that text put before
    the identifier; and an integer identifier has the key of its decimal
    text. Rows of such organizations are stored as one record. *)
Theorem make_org_key_collisions (name x y : string) (z : Z) :
  make_org_key (name ++ "_" ++ x) (CStr y)
  = make_org_key name (CStr (x ++ "_" ++ y))
  /\ make_org_key name (CInt z) = make_org_key name (CStr (Str.of_Z z)).
Proof.
  split; [|reflexivity].
  unfold make_org_key. simpl py_str.
  now rewrite !append_assoc.
Qed.

(** ** Rows that are never linked *)

Lemma cell_eqb_NaN_r (c : cell) : cell_eqb c CNaN = false.
Proof. now destruct c. Qed.

Lemma flat_map_nil {A B : Type} (f : A -> list B) (l : list A) :
  (forall x, In x l -> f x = []) -> flat_map f l = [].
Proof.
  induction l as [|x t IH]; simpl; [reflexivity|].
  intros H. rewrite (H x (or_introl eq_refl)). simpl.
  apply IH. intros y Hy. apply H. now right.
Qed.

(** X10: a missing linking identifier matches nothing, another missing
    identifier included: a sticker row without identifier gives no
    connection, organization records without identifier are never linked,
    and when no sticker location has resolved there is no connection at
    all. *)
Theorem connections_need_identifier_and_location :
  (forall sticker_points org_points row,
     sticker_ID row = CNaN ->
     connections_of_row sticker_points org_points row = [])
  /\ (forall sticker_df sticker_points org_points,
        (forall key od, In (key, od) org_points -> od_sticker_id od = CNaN) ->
        connections_of sticker_df sticker_points org_points = [])
  /\ (forall sticker_df org_points,
        connections_of sticker_df [] org_points = []).
Proof.
  split; [|split].
  - intros sp op row Hid. unfold connections_of_row.
    apply flat_map_nil. intros [key od] _. rewrite Hid.
    now rewrite cell_eqb_NaN_r.
  - intros sd sp op H. unfold connections_of.
    apply flat_map_nil. intros row _. unfold connections_of_row.
    apply flat_map_nil. intros [key od] Hin. now rewrite (H key od Hin).
  - intros sd op. unfold connections_of.
    apply flat_map_nil. intros row _. unfold connections_of_row.
    apply flat_map_nil. intros [key od] _. simpl.
    now destruct (cell_eqb (od_sticker_id od) (sticker_ID row)).
Qed.

Lemma connections_of_row_length (sticker_points : dict cell point)
  (org_points : dict string org_data) (row : sticker_row) :
  List.length (connections_of_row sticker_points org_points row)
  <= List.length org_points.
Proof.
  unfold connections_of_row.
  induction org_points as [|[key od] t IH]; simpl; [lia|].
  rewrite length_app.
  destruct (cell_eqb (od_sticker_id od) (sticker_ID row)); simpl; [|lia].
  destruct (dict_get cell_eqb (sticker_location row) sticker_points);
    simpl; lia.
Qed.

(** X11: a sticker row is linked to an organization record at most once,
    so there are at most as many connections as there are pairs of a
    sticker row and an organization record. *)
Theorem connections_bounded (sticker_df : list sticker_row)
  (sticker_points : dict cell point) (org_points : dict string org_data) :
  List.length (connections_of sticker_df sticker_points org_points)
  <= List.length sticker_df * List.length org_points.
Proof.
  unfold connections_of.
  induction sticker_df as [|row t IH]; simpl; [lia|].
  rewrite length_app.
  pose proof (connections_of_row_length sticker_points org_points row).
  lia.
Qed.

(** ** Totals of the topic frame *)

Lemma sum_counts_app (a b : counts) :
  sum_counts (a ++ b) = sum_counts a + sum_counts b.
Proof.
  induction a as [|x t IH]; simpl; [reflexivity|]. rewrite IH. lia.
Qed.

Lemma sum_counts_perm (a b : counts) :
  Permutation a b -> sum_counts a = sum_counts b.
Proof.
  induction 1; simpl; lia.
Qed.

Lemma sum_counts_incr (x : string) (n : nat) (c : counts) :
  dict_get String.eqb x c = Some n ->
  sum_counts (dict_set String.eqb x (S n) c) = S (sum_counts c).
Proof.
  induction c as [|[k v] t IH]; simpl; [discriminate|].
  destruct (String.eqb k x); simpl.
  - intros H. injection H as ->. reflexivity.
  - intros H. rewrite (IH H). lia.
Qed.

Lemma sum_counts_Counter (xs : list string) :
  sum_counts (Counter xs) = List.length xs.
Proof.
  unfold Counter.
  assert (H : forall acc,
             sum_counts (fold_left counter_incr xs acc)
             = sum_counts acc + List.length xs).
  { induction xs as [|x t IH]; intros acc; simpl; [lia|].
    rewrite IH. unfold counter_incr.
    destruct (dict_get String.eqb x acc) as [n|] eqn:E.
    - rewrite (sum_counts_incr _ _ _ E). lia.
    - rewrite sum_counts_app. simpl. lia. }
  now rewrite H.
Qed.

Lemma count_str_pos (t : string) (xs : list string) :
  In t xs -> 1 <= count_str t xs.
Proof.
  induction xs as [|x l IH]; [intros []|].
  intros H. rewrite count_str_cons.
  destruct (String.eqb t x) eqn:E; [lia|].
  destruct H as [->|H]; [now rewrite String.eqb_refl in E|].
  specialize (IH H). lia.
Qed.

Lemma count_str_absent (t : string) (xs : list string) :
  ~ In t xs -> count_str t xs = 0.
Proof.
  induction xs as [|x l IH]; [reflexivity|].
  intros H. rewrite count_str_cons, IH by (intros Hin; apply H; now right).
  destruct (String.eqb t x) eqn:E; [|reflexivity].
  apply String.eqb_eq in E. subst x. elim H. now left.
Qed.

(** X12: whatever sort pandas uses, the topic frame accounts for every
    cleaned topic once: its counts add up to the number of topics given,
    every count is at least one, and no label has two rows. *)
Theorem topic_frequencies_total (srt : sorter) (topics : list string) :
  sorter_ok srt ->
  sum_counts (topic_frequencies srt topics) = List.length topics
  /\ Forall (fun r => 1 <= snd r) (topic_frequencies srt topics)
  /\ NoDup (map fst (topic_frequencies srt topics)).
Proof.
  intros Hsrt. unfold topic_frequencies.
  destruct (Hsrt (Counter topics)) as [Hp _].
  split; [|split].
  - rewrite <- (sum_counts_perm _ _ Hp). apply sum_counts_Counter.
  - apply (Permutation_Forall Hp). apply Forall_forall.
    intros x Hx. apply Counter_In in Hx as [Hin ->].
    now apply count_str_pos.
  - apply (Permutation_NoDup (Permutation_map fst Hp)).
    change (map fst (Counter topics)) with (keys (Counter topics)).
    rewrite Counter_keys. apply (unique_NoDup _ String.eqb_eq).
Qed.

Lemma count_str_filter_map {A : Type} (f : A -> string) (p : string -> bool)
  (t : string) (l : list A) :
  p t = true ->
  count_str t (filter p (map f l))
  = List.length (filter (fun a => String.eqb t (f a)) l).
Proof.
  intros Hp. unfold count_str.
  induction l as [|a l IH]; simpl; [reflexivity|].
  destruct (String.eqb t (f a)) eqn:E.
  - apply String.eqb_eq in E. rewrite <- E, Hp. simpl.
    rewrite String.eqb_refl. simpl. now rewrite IH.
  - destruct (p (f a)); simpl; [rewrite E|]; exact IH.
Qed.

(** X13: a row of the frame returned by [analyze_topic_frequencies] is
    never labelled ["N/A"] or ["nan"], so rows of the table with a missing
    topic are not counted, and its count is the number of rows of the
    table whose topic, as text and stripped, is its label. *)
Theorem analyze_topic_frequencies_rows (srt : sorter)
  (df : list general_row) (r : string * nat) :
  sorter_ok srt ->
  In r (analyze_topic_frequencies srt df) ->
  fst r <> "N/A" /\ fst r <> "nan"
  /\ snd r = rows_with_topic (fst r) df
  /\ 1 <= snd r.
Proof.
  intros Hsrt Hin. unfold analyze_topic_frequencies, topic_frequencies in Hin.
  destruct (Hsrt (Counter (cleaned_topics df))) as [Hp _].
  apply (Permutation_in _ (Permutation_sym Hp)) in Hin.
  apply Counter_In in Hin as [Hin Hc].
  pose proof Hin as Hin'.
  unfold cleaned_topics in Hin'. apply filter_In in Hin' as [_ Hf].
  pose proof Hf as Hf'.
  apply andb_true_iff in Hf' as [H1 H2].
  apply negb_true_iff in H1, H2.
  apply String.eqb_neq in H1, H2.
  split; [exact H1|]. split; [exact H2|]. split.
  - rewrite Hc. unfold cleaned_topics, rows_with_topic.
    now apply (count_str_filter_map
                 (fun r => clean (topic r))
                 (fun t => negb (String.eqb t "N/A")
                           && negb (String.eqb t "nan"))).
  - rewrite Hc. now apply count_str_pos.
Qed.

(** X14: the two analyses do not clean alike. A topic text that is not
    ["N/A"] itself but strips to it, as one with a blank around it, is
    left out of the topic frame, where the text is stripped before it is
    compared, and kept by the organization-topic analysis, where it is
    compared before it is stripped: there it is the topic ["N/A"]. *)
Theorem padded_NA_cleaned_differently (df : list general_row)
  (r : general_row) (s : string) :
  In r df ->
  topic r = CStr s -> s <> "N/A" -> Str.strip s = "N/A" ->
  notna (organization r) = true -> is_NA (organization r) = false ->
  ~ In "N/A" (cleaned_topics df)
  /\ In (clean (organization r), "N/A") (cleaned_pairs df).
Proof.
  intros Hin Ht Hs Hstrip Ho1 Ho2. split.
  - unfold cleaned_topics. rewrite filter_In. intros [_ H].
    discriminate H.
  - unfold cleaned_pairs. apply in_map_iff. exists r. split.
    + unfold clean at 2. rewrite Ht. simpl. now rewrite Hstrip.
    + apply filter_In. split; [exact Hin|].
      rewrite Ho1, Ho2, Ht. simpl.
      apply String.eqb_neq in Hs. now rewrite Hs.
Qed.

(** ** The pie frame and the word cloud *)

Lemma sum_counts_split (p : string * nat -> bool) (l : counts) :
  sum_counts (filter p l) + sum_counts (filter (fun r => negb (p r)) l)
  = sum_counts l.
Proof.
  induction l as [|x t IH]; simpl; [reflexivity|].
  destruct (p x); simpl; lia.
Qed.

(** X15: grouping the small topics loses no mention: the counts of the pie
    frame add up to the counts of the topic frame, and the pie frame never
    has more rows than the topic frame. *)
Theorem pie_frame_keeps_total (topic_df : counts) :
  sum_counts (pie_frame topic_df) = sum_counts topic_df
  /\ List.length (pie_frame topic_df) <= List.length topic_df.
Proof.
  unfold pie_frame, threshold.
  destruct (filter (fun r => snd r <? 3) topic_df) as [|x t] eqn:E;
    [split; [reflexivity|lia]|].
  rewrite <- E. split.
  - rewrite sum_counts_app. simpl. rewrite Nat.add_0_r.
    rewrite <- (sum_counts_split (fun r => 3 <=? snd r) topic_df). f_equal.
    f_equal. apply filter_ext. intros r.
    destruct (Nat.leb_spec 3 (snd r)), (Nat.ltb_spec (snd r) 3);
      simpl; try reflexivity; lia.
  - rewrite length_app. simpl.
    assert (H : List.length (filter (fun r => 3 <=? snd r) topic_df)
                + List.length (filter (fun r => snd r <? 3) topic_df)
                = List.length topic_df).
    { clear. induction topic_df as [|r l IH]; [reflexivity|].
      cbn [filter].
      destruct (Nat.leb_spec 3 (snd r)), (Nat.ltb_spec (snd r) 3);
        cbn [List.length]; lia. }
    rewrite E in H. simpl in H. lia.
Qed.

Lemma dict_of_rows_loop (rows : counts) :
  forall acc : dict string nat,
    NoDup (keys acc ++ map fst rows) ->
    fold_left (fun d r => dict_set String.eqb (fst r) (snd r) d) rows acc
    = acc ++ rows.
Proof.
  induction rows as [|[k n] t IH]; intros acc Hnd; simpl.
  - now rewrite app_nil_r.
  - simpl in Hnd.
    assert (Hk : ~ In k (keys acc)).
    { intros Hin. apply NoDup_remove_2 in Hnd. apply Hnd.
      apply in_or_app. now left. }
    rewrite dict_set_fresh by now apply dict_get_keys.
    rewrite IH.
    + now rewrite <- app_assoc.
    + rewrite keys_app. simpl. now rewrite <- app_assoc.
Qed.

Lemma dict_get_In {V : Type} (k : string) (v : V) (d : dict string V) :
  NoDup (keys d) -> In (k, v) d -> dict_get String.eqb k d = Some v.
Proof.
  induction d as [|[k' v'] t IH]; simpl; [intros _ []|].
  intros Hnd [H|H].
  - injection H as -> ->. now rewrite String.eqb_refl.
  - apply NoDup_cons_iff in Hnd as [Hk Hnd].
    destruct (String.eqb k' k) eqn:E; [|now apply IH].
    apply String.eqb_eq in E. subst k'.
    elim Hk. apply (in_map fst) in H. exact H.
Qed.

(** X16: the weights handed to the word cloud are the numbers of
    occurrences: the dictionary made of the topic frame gives each topic
    that occurs its count, and has no entry for any other text. *)
Theorem wordcloud_weights (srt : sorter) (topics : list string)
  (t : string) :
  sorter_ok srt ->
  dict_get String.eqb t (dict_of_rows (topic_frequencies srt topics))
  = if count_str t topics =? 0 then None else Some (count_str t topics).
Proof.
  intros Hsrt. unfold topic_frequencies.
  destruct (Hsrt (Counter topics)) as [Hp _].
  assert (Hnd : NoDup (keys (srt (Counter topics)))).
  { apply (Permutation_NoDup (Permutation_map fst Hp)).
    change (map fst (Counter topics)) with (keys (Counter topics)).
    rewrite Counter_keys. apply (unique_NoDup _ String.eqb_eq). }
  unfold dict_of_rows. rewrite dict_of_rows_loop by exact Hnd. simpl.
  destruct (count_str t topics =? 0) eqn:E.
  - apply Nat.eqb_eq in E. apply dict_get_keys. intros Hin.
    apply (Permutation_in _ (Permutation_sym (Permutation_map fst Hp))) in Hin.
    change (map fst (Counter topics)) with (keys (Counter topics)) in Hin.
    rewrite Counter_keys in Hin.
    apply -> (unique_In _ String.eqb_eq) in Hin.
    apply count_str_pos in Hin. lia.
  - apply Nat.eqb_neq in E. apply dict_get_In; [exact Hnd|].
    apply (Permutation_in _ Hp). apply Counter_In. simpl. split; [|reflexivity].
    destruct (in_dec string_dec t topics) as [Hin|Hout]; [exact Hin|].
    apply count_str_absent in Hout. lia.
Qed.

(** ** Rows and columns of the matrix *)

Lemma organization_topics_shape (srt : sorter) (df : list general_row) :
  sorter_ok srt ->
  let pairs := cleaned_pairs df in
  let top := top_orgs_of srt pairs in
  let pv := organization_topics srt df in
  NoDup (pv_index pv) /\ NoDup (pv_columns pv)
  /\ (forall o, In o (pv_index pv) <-> In o top)
  /\ (forall t, In t (pv_columns pv) <-> exists o, In o top /\ In (o, t) pairs)
  /\ pv_cells pv
     = map (fun o => map (fun t => count_pair (o, t) pairs) (pv_columns pv))
         (pv_index pv).
Proof.
  intros Hsrt pairs top pv.
  destruct (top_orgs_spec srt pairs Hsrt) as (_ & _ & Hsub & _).
  fold top in Hsub.
  pose proof (organization_topics_unfold srt df) as Hpv.
  simpl in Hpv. fold pairs top pv in Hpv.
  set (keys' := selected_keys top pairs) in *.
  set (index := isort String.leb (unique String.eqb (map fst keys'))) in *.
  set (columns := isort String.leb (unique String.eqb (map snd keys'))) in *.
  assert (Hidx : forall o, In o index <-> In o top).
  { intros o. unfold index.
    rewrite isort_In, (unique_In _ String.eqb_eq), in_map_iff. split.
    - intros (k & <- & Hk). now apply selected_keys_In in Hk.
    - intros Ho. specialize (Hsub o Ho).
      apply in_map_iff in Hsub as (k & <- & Hk).
      exists k. split; [reflexivity|]. apply selected_keys_In. now split. }
  rewrite Hpv. simpl. split; [|split; [|split; [|split]]].
  - apply isort_NoDup, (unique_NoDup _ String.eqb_eq).
  - apply isort_NoDup, (unique_NoDup _ String.eqb_eq).
  - exact Hidx.
  - intros t. unfold columns.
    rewrite isort_In, (unique_In _ String.eqb_eq), in_map_iff. split.
    + intros ([o t'] & <- & Hk). apply selected_keys_In in Hk as [H1 H2].
      now exists o.
    + intros (o & Ho & Hin). exists (o, t). split; [reflexivity|].
      apply selected_keys_In. now split.
  - apply map_ext_in. intros o Ho. apply map_ext. intros t.
    destruct (existsb (fun k' => pair_eqb k' (o, t)) keys') eqn:E;
      [reflexivity|].
    symmetry. apply count_pair_absent. intros Hin.
    assert (Hk : In (o, t) keys').
    { apply selected_keys_In. split; [exact Hin|]. now apply Hidx. }
    assert (Ht : existsb (fun k' => pair_eqb k' (o, t)) keys' = true).
    { apply existsb_exists. exists (o, t). split; [exact Hk|].
      now apply pair_eqb_eq. }
    congruence.
Qed.

Lemma Forall2_map_same {A B : Type} (P : A -> B -> Prop) (f : A -> B)
  (l : list A) :
  (forall a, In a l -> P a (f a)) -> Forall2 P l (map f l).
Proof.
  induction l as [|a t IH]; simpl; intros H; constructor.
  - apply H. now left.
  - apply IH. intros b Hb. apply H. now right.
Qed.

Lemma count_str_fst (o : string) (pairs : list (string * string)) :
  count_str o (map fst pairs)
  = List.length (filter (fun p => String.eqb o (fst p)) pairs).
Proof.
  unfold count_str. rewrite filter_map_comm. apply length_map.
Qed.

Lemma filter_all {A : Type} (p : A -> bool) (l : list A) :
  (forall x, In x l -> p x = true) -> filter p l = l.
Proof.
  induction l as [|x t IH]; simpl; [reflexivity|].
  intros H. rewrite (H x (or_introl eq_refl)). f_equal.
  apply IH. intros y Hy. apply H. now right.
Qed.

(** X17: in the matrix every row adds up to the number of data rows of its
    organization, whichever topics they bear, and that is at least one: no
    row of the heatmap is all zeros, and the row totals are the totals the
    organizations were selected by. *)
Theorem matrix_row_totals (srt : sorter) (df : list general_row) :
  sorter_ok srt ->
  Forall2
    (fun o row =>
       list_sum row = count_str o (map fst (cleaned_pairs df))
       /\ 1 <= list_sum row)
    (pv_index (organization_topics srt df))
    (pv_cells (organization_topics srt df)).
Proof.
  intros Hsrt.
  destruct (organization_topics_shape srt df Hsrt)
    as (_ & Hndc & Hidx & Hcol & Hcells).
  destruct (top_orgs_spec srt (cleaned_pairs df) Hsrt) as (_ & _ & Hsub & _).
  rewrite Hcells. apply Forall2_map_same. intros o Ho.
  apply Hidx in Ho.
  set (columns := pv_columns (organization_topics srt df)) in *.
  clearbody columns.
  assert (Hsum :
            list_sum
              (map (fun t => count_pair (o, t) (cleaned_pairs df)) columns)
            = count_str o (map fst (cleaned_pairs df))).
  { pose proof (sum_cells_count [o] columns (cleaned_pairs df)
                  (NoDup_cons o (@in_nil _ o) (NoDup_nil _)) Hndc) as H.
    unfold sum_cells in H. simpl in H. rewrite Nat.add_0_r in H.
    rewrite H, count_str_fst. f_equal.
    apply filter_ext_in. intros [o' t] Hin. simpl.
    rewrite orb_false_r, (String.eqb_sym o' o).
    destruct (String.eqb o o') eqn:E; [|reflexivity]. simpl.
    apply String.eqb_eq in E. subst o'.
    apply isin_In, Hcol. now exists o. }
  split; [exact Hsum|]. rewrite Hsum.
  apply count_str_pos. now apply Hsub.
Qed.

(** X18: with ten organizations or fewer nothing is cut: every
    organization of the cleaned data is selected, and the cells of the
    matrix add up to the number of all cleaned data rows. *)
Theorem few_organizations_all_selected (srt : sorter)
  (df : list general_row) :
  sorter_ok srt ->
  List.length (unique String.eqb (map fst (cleaned_pairs df))) <= 10 ->
  (forall o,
     In o (map fst (cleaned_pairs df)) ->
     In o (top_orgs_of srt (cleaned_pairs df)))
  /\ sum_cells (pv_cells (organization_topics srt df))
     = List.length (cleaned_pairs df).
Proof.
  intros Hsrt Hfew.
  destruct (organization_topics_shape srt df Hsrt)
    as (Hndi & Hndc & Hidx & Hcol & Hcells).
  destruct (top_orgs_spec srt (cleaned_pairs df) Hsrt)
    as (Hlen & Hnd & Hsub & _).
  assert (Hall : forall o,
             In o (map fst (cleaned_pairs df)) ->
             In o (top_orgs_of srt (cleaned_pairs df))).
  { intros o Ho.
    apply (NoDup_length_incl Hnd
             (l' := unique String.eqb (map fst (cleaned_pairs df)))).
    - rewrite Hlen. lia.
    - intros x Hx. apply <- (unique_In _ String.eqb_eq). now apply Hsub.
    - now apply <- (unique_In _ String.eqb_eq). }
  split; [exact Hall|].
  rewrite Hcells, (sum_cells_count _ _ _ Hndi Hndc). f_equal.
  apply filter_all. intros [o t] Hin. simpl.
  assert (Ho : In o (top_orgs_of srt (cleaned_pairs df))).
  { apply Hall. apply (in_map fst) in Hin. exact Hin. }
  apply andb_true_iff. split; apply isin_In.
  - now apply Hidx.
  - apply Hcol. now exists o.
Qed.

(** ** Faults while rendering *)

(** X19: the chart script stops at the first chart that cannot be drawn,
    with that chart's exception: when the bar chart fails no file is
    written, and when the bar chart is written and the pie chart fails the
    bar chart is the only file written. *)
Theorem visual_main_stops_at_fault (E : env) (srt : sorter) (P : paths)
  (df : list general_row) (w : world) (e : exn) :
  (render_fault E (bar_chart_path P) = Some e ->
   exists w',
     visual_main E srt P df w = (Raise e, w') /\ files w' = files w)
  /\ (render_fault E (bar_chart_path P) = None ->
      render_fault E (pie_chart_path P) = Some e ->
      exists w',
        visual_main E srt P df w = (Raise e, w')
        /\ files w'
           = files w
             ++ [(bar_chart_path P,
                  BarChart (analyze_topic_frequencies srt df))]).
Proof.
  split.
  - intros Hbar. unfold visual_main, bind_io, print.
    rewrite print_rows_ok. cbv beta iota zeta.
    unfold create_bar_chart, bind_io, render. rewrite Hbar.
    unfold raise. eexists. split; reflexivity.
  - intros Hbar Hpie. unfold visual_main, bind_io, print.
    rewrite print_rows_ok. cbv beta iota zeta.
    rewrite create_bar_chart_ok by exact Hbar. cbv beta iota zeta.
    unfold create_pie_chart, bind_io, render. rewrite Hpie.
    unfold raise. eexists. split; reflexivity.
Qed.

(** X20: [create_wordcloud] guards against [ImportError] and nothing else.
    With the package installed, a rendering that raises [ImportError] is
    reported as the package not being installed and the call returns; a
    rendering that raises anything else ends the call in that exception.
    Either way no word cloud is written. *)
Theorem create_wordcloud_faults (E : env) (topic_df : counts)
  (out : string) (w : world) (e : exn) :
  has_wordcloud E = true ->
  render_fault E out = Some e ->
  create_wordcloud E topic_df out w
  = match e with
    | ImportError =>
        (Ok tt,
         {| stdout := stdout w ++ [wordcloud_missing]; files := files w |})
    | _ => (Raise e, w)
    end.
Proof.
  intros Hw Hr.
  unfold create_wordcloud, try_except_ImportError, bind_io, import, render,
    print, ret, raise.
  rewrite Hw, Hr. now destruct e.
Qed.

(** ** Texts with an empty part *)

Lemma split_nonempty (c : ascii) (s : string) :
  exists p ps, Str.split c s = p :: ps.
Proof.
  induction s as [|a t (p & ps & IH)]; simpl; [now exists "", []|].
  destruct (Ascii.eqb a c); [now exists "", (Str.split c t)|].
  rewrite IH. now exists (String a p), ps.
Qed.

Lemma split_trailing (c : ascii) (a : string) :
  Str.contains c a = false ->
  Str.split c (a ++ String c "") = [a; ""].
Proof.
  induction a as [|x t IH]; simpl.
  - intros _. now rewrite Ascii.eqb_refl.
  - intros H. apply orb_false_iff in H as [Hx Ht].
    rewrite Hx, (IH Ht). reflexivity.
Qed.

(** X21: a text with nothing before its first comma, or with one comma
    and nothing after it, has no coordinate: the empty part is not a
    number. *)
Theorem extract_coordinates_empty_part :
  (forall b, extract_coordinates (CStr ("," ++ b)) = Ok no_coordinate)
  /\ (forall a,
        Str.contains "," a = false ->
        extract_coordinates (CStr (a ++ ",")) = Ok no_coordinate).
Proof.
  split.
  - intros b. rewrite extract_coordinates_string.
    destruct (negb (String.eqb ("," ++ b) "N/A") && Str.contains "," ("," ++ b));
      [|reflexivity].
    destruct (split_nonempty "," b) as (p & ps & Hs).
    assert (H : Str.split "," ("," ++ b) = "" :: p :: ps)
      by (simpl; now rewrite Hs).
    rewrite (extract_try_parts _ _ _ _ H). reflexivity.
  - intros a Ha. rewrite extract_coordinates_string.
    destruct (negb (String.eqb (a ++ ",") "N/A") && Str.contains "," (a ++ ","));
      [|reflexivity].
    rewrite (extract_try_parts _ _ _ _ (split_trailing "," a Ha)).
    destruct (py_float_cases (Str.strip a)) as [[f ->] | ->]; reflexivity.
Qed.

(** ** The five topics printed and the sizes printed *)

(** X22: after the line ["Top 5 topics:"] the chart script prints one line
    for each of the first five rows of the topic frame, fewer when the
    frame is shorter, and no row left out has a larger count than a row
    printed. *)
Theorem top_five_printed (srt : sorter) (df : list general_row) (w : world) :
  sorter_ok srt ->
  let topic_df := analyze_topic_frequencies srt df in
  print_rows (firstn 5 topic_df) w
  = (Ok tt,
     {| stdout := stdout w ++ map line_of_row (firstn 5 topic_df);
        files := files w |})
  /\ List.length (firstn 5 topic_df) = Nat.min 5 (List.length topic_df)
  /\ (forall r r',
        In r (firstn 5 topic_df) -> In r' (skipn 5 topic_df) ->
        snd r' <= snd r).
Proof.
  intros Hsrt topic_df. split; [apply print_rows_ok|].
  split; [apply length_firstn|].
  assert (Hd : descending (firstn 5 topic_df ++ skipn 5 topic_df)).
  { rewrite firstn_skipn. apply Hsrt. }
  intros r r'. exact (descending_app _ _ Hd r r').
Qed.

Lemma located_length (rows : list sticker_row) :
  List.length (flat_map located rows) <= List.length rows.
Proof.
  induction rows as [|r t IH]; simpl; [lia|].
  rewrite length_app. unfold located at 1.
  destruct (notna (sticker_location r)); simpl; [|lia].
  destruct (resolve (sticker_location_coordinates r)); simpl; lia.
Qed.

Lemma drop_duplicates_from_length {A : Type} (col : A -> cell)
  (rows : list A) :
  forall seen,
    List.length (drop_duplicates_from col seen rows) <= List.length rows.
Proof.
  induction rows as [|r t IH]; intros seen; simpl; [lia|].
  destruct (existsb (dup_eqb (col r)) seen); simpl.
  - specialize (IH seen). lia.
  - specialize (IH (col r :: seen)). lia.
Qed.

Lemma org_points_loop_length (rows : list general_row) :
  forall acc d,
    foldM org_point_step rows acc = Ok d ->
    List.length d <= List.length acc + List.length rows.
Proof.
  induction rows as [|r t IH]; intros acc d; simpl.
  - intros H. injection H as <-. lia.
  - rewrite org_point_step_stored. simpl. intros Hrun.
    apply IH in Hrun.
    destruct (resolve (organization_location_coordinates r)); [|lia].
    assert (H : List.length
                  (dict_set String.eqb (org_key_of r) (org_record_of r p) acc)
                <= S (List.length acc)).
    { rewrite <- (length_map fst). fold (keys (dict_set String.eqb (org_key_of r)
                                                 (org_record_of r p) acc)).
      rewrite keys_dict_set.
      destruct (dict_mem String.eqb (org_key_of r) acc).
      - unfold keys. rewrite length_map. lia.
      - rewrite length_app. unfold keys. rewrite length_map. simpl. lia. }
    lia.
Qed.

(** X23: there are never more sticker locations than rows of the sticker
    table, nor more organization records than rows of the general table. *)
Theorem points_bounded_by_rows (sticker_df : list sticker_row)
  (general_df : list general_row) :
  exists sticker_points org_points,
    sticker_points_of sticker_df = Ok sticker_points
    /\ org_points_of general_df = Ok org_points
    /\ List.length sticker_points <= List.length sticker_df
    /\ List.length org_points <= List.length general_df.
Proof.
  destruct (org_points_loop general_df []) as [op Ho].
  exists (flat_map located (drop_duplicates sticker_location sticker_df)), op.
  split; [|split; [exact Ho|split]].
  - unfold sticker_points_of, drop_duplicates.
    rewrite sticker_points_loop_order; [reflexivity|]. intros k [].
  - etransitivity; [apply located_length|].
    apply drop_duplicates_from_length.
  - apply org_points_loop_length in Ho. simpl in Ho. exact Ho.
Qed.

(** ** The properties at concrete inputs *)

Lemma create_simple_map_no_points_witness :
  create_simple_map env_all unlocated_stickers world0
  = (Raise ValueError, world0).
Proof.
  apply create_simple_map_no_points; [reflexivity|].
  vm_compute. reflexivity.
Defined.

Lemma create_simple_map_with_basemap_witness :
  create_simple_map env_all one_sticker world0
  = (Ok one_sticker_points,
     {| stdout := ["Map created successfully!"];
        files :=
          [("sticker_locations_map.png",
            StaticMap true one_sticker_points
              (path_edges (keys one_sticker_points)))] |}).
Proof.
  apply (create_simple_map_with_basemap env_all one_sticker
           one_sticker_points world0).
  - reflexivity.
  - reflexivity.
  - vm_compute. reflexivity.
  - discriminate.
Defined.



Lemma network_main_complete_witness :
  exists w',
    network_main env_all one_sticker one_organization world0 = (Ok tt, w')
    /\ map fst (files w')
       = ["sticker_locations_map.png"; "expanded_network_map.html"]
    /\ In "Output files:" (stdout w').
Proof.
  apply (network_main_complete env_all one_sticker one_organization
           one_sticker_points world0).
  - reflexivity.
  - reflexivity.
  - reflexivity.
  - vm_compute. reflexivity.
  - discriminate.
Defined.

Lemma org_points_last_row_wins_witness :
  dict_get String.eqb "Org_1"
    [("Org_1", org_record_of later_row (Float.of_Z 2, Float.of_Z 2))]
  = Some (org_record_of later_row (Float.of_Z 2, Float.of_Z 2)).
Proof.
  apply (proj2 (org_points_last_row_wins [earlier_row] [] later_row
                  (Float.of_Z 2, Float.of_Z 2)
                  [("Org_1", org_record_of later_row (Float.of_Z 2, Float.of_Z 2))]
                  ltac:(vm_compute; reflexivity)
                  ltac:(intros r pt' [])
                  ltac:(vm_compute; reflexivity))).
Defined.

Lemma connections_need_identifier_and_location_witness :
  connections_of_row one_sticker_points one_org_points
    (mk_sticker_row CNaN (CStr "A") (CStr "48.21, 16.36")) = [].
Proof.
  apply (proj1 connections_need_identifier_and_location). reflexivity.
Defined.

Lemma topic_frequencies_total_witness :
  sum_counts (topic_frequencies stable_sort_desc ["b"; "a"; "b"; "c"]) = 4.
Proof.
  exact (proj1 (topic_frequencies_total stable_sort_desc
                  ["b"; "a"; "b"; "c"] stable_sort_desc_ok)).
Defined.

Lemma analyze_topic_frequencies_rows_witness :
  snd ("climate", 2)
  = rows_with_topic (fst ("climate", 2)) [later_row; padded_row; later_row].
Proof.
  apply (analyze_topic_frequencies_rows stable_sort_desc
           [later_row; padded_row; later_row] ("climate", 2)
           stable_sort_desc_ok).
  vm_compute. now left.
Defined.

Lemma padded_NA_cleaned_differently_witness :
  In (clean (organization padded_row), "N/A") (cleaned_pairs [padded_row]).
Proof.
  apply (padded_NA_cleaned_differently [padded_row] padded_row " N/A").
  - now left.
  - reflexivity.
  - discriminate.
  - reflexivity.
  - reflexivity.
  - reflexivity.
Defined.

Lemma wordcloud_weights_witness :
  dict_get String.eqb "b"
    (dict_of_rows (topic_frequencies stable_sort_desc ["b"; "a"; "b"; "c"]))
  = if count_str "b" ["b"; "a"; "b"; "c"] =? 0 then None
    else Some (count_str "b" ["b"; "a"; "b"; "c"]).
Proof.
  exact (wordcloud_weights stable_sort_desc ["b"; "a"; "b"; "c"] "b"
           stable_sort_desc_ok).
Defined.

Lemma matrix_row_totals_witness :
  Forall2
    (fun o row =>
       list_sum row = count_str o (map fst (cleaned_pairs eighteen_orgs))
       /\ 1 <= list_sum row)
    (pv_index (organization_topics stable_sort_desc eighteen_orgs))
    (pv_cells (organization_topics stable_sort_desc eighteen_orgs)).
Proof.
  exact (matrix_row_totals stable_sort_desc eighteen_orgs stable_sort_desc_ok).
Defined.

Lemma few_organizations_all_selected_witness :
  sum_cells (pv_cells (organization_topics stable_sort_desc
                         [earlier_row; later_row; padded_row]))
  = List.length (cleaned_pairs [earlier_row; later_row; padded_row]).
Proof.
  apply (few_organizations_all_selected stable_sort_desc
           [earlier_row; later_row; padded_row] stable_sort_desc_ok).
  vm_compute. lia.
Defined.

Lemma visual_main_stops_at_fault_witness :
  exists w',
    visual_main env_bar_fault stable_sort_desc chart_paths one_organization
      world0 = (Raise OSError, w')
    /\ files w' = [].
Proof.
  apply (proj1 (visual_main_stops_at_fault env_bar_fault stable_sort_desc
                  chart_paths one_organization world0 OSError)).
  reflexivity.
Defined.

Lemma create_wordcloud_faults_witness :
  create_wordcloud env_bar_fault [("climate", 1)] "output/topic_bar_chart.png"
    world0
  = (Raise OSError, world0).
Proof.
  apply (create_wordcloud_faults env_bar_fault [("climate", 1)]
           "output/topic_bar_chart.png" world0 OSError); reflexivity.
Defined.

Lemma extract_coordinates_empty_part_witness :
  extract_coordinates (CStr ("52.5" ++ ",")) = Ok no_coordinate.
Proof.
  apply (proj2 extract_coordinates_empty_part). reflexivity.
Defined.

Lemma top_five_printed_witness :
  List.length (firstn 5 (analyze_topic_frequencies stable_sort_desc
                           [later_row; padded_row; later_row]))
  = Nat.min 5
      (List.length (analyze_topic_frequencies stable_sort_desc
                      [later_row; padded_row; later_row])).
Proof.
  exact (proj1 (proj2 (top_five_printed stable_sort_desc
                         [later_row; padded_row; later_row] world0
                         stable_sort_desc_ok))).
Defined.

(** ** Ties at the cutoff under a stable sort *)

Lemma isort_descending (l : counts) :
  descending l -> isort count_ge l = l.
Proof.
  unfold descending. induction l as [|x t IH]; [reflexivity|].
  intros H. apply StronglySorted_inv in H as [Ht Hx].
  simpl. rewrite (IH Ht).
  destruct t as [|y t']; [reflexivity|].
  simpl. unfold count_ge at 1.
  apply Forall_inv in Hx. apply Nat.leb_le in Hx. now rewrite Hx.
Qed.

Lemma filter_split {A : Type} (p : A -> bool) (a : list A) :
  forall (l : list A) (x : A) (r : list A),
    filter p l = a ++ x :: r ->
    exists l1 l2, l = l1 ++ x :: l2 /\ filter p l2 = r.
Proof.
  induction a as [|h a IH]; intros l x r; simpl.
  - induction l as [|y t IHl]; simpl; [discriminate|].
    destruct (p y).
    + intros H. injection H as -> Hr. now exists [], t.
    + intros H. destruct (IHl H) as (l1 & l2 & -> & Hr).
      now exists (y :: l1), l2.
  - induction l as [|y t IHl]; simpl; [discriminate|].
    destruct (p y).
    + intros H. injection H as -> Hr.
      destruct (IH _ _ _ Hr) as (l1 & l2 & -> & Hr').
      now exists (h :: l1), l2.
    + intros H. destruct (IHl H) as (l1 & l2 & -> & Hr).
      now exists (y :: l1), l2.
Qed.

Lemma before_filter {A : Type} (p : A -> bool) (x y : A) (l : list A) :
  p x = true -> p y = true -> before x y l -> before x y (filter p l).
Proof.
  intros Hx Hy (l1 & l2 & l3 & ->).
  exists (filter p l1), (filter p l2), (filter p l3).
  rewrite filter_app. simpl. rewrite Hx, filter_app. simpl. now rewrite Hy.
Qed.

Lemma before_filter_inv {A : Type} (p : A -> bool) (x y : A) (l : list A) :
  before x y (filter p l) -> before x y l.
Proof.
  intros (a & b & c & H).
  destruct (filter_split p a l x _ H) as (l1 & l2 & -> & H2).
  destruct (filter_split p b l2 y _ H2) as (m1 & m2 & -> & _).
  now exists l1, m1, m2.
Qed.

Lemma before_map {A B : Type} (f : A -> B) (x y : A) (l : list A) :
  before x y l -> before (f x) (f y) (map f l).
Proof.
  intros (l1 & l2 & l3 & ->).
  exists (map f l1), (map f l2), (map f l3).
  rewrite map_app. simpl. now rewrite map_app.
Qed.

(** Of two elements of a list without repetition, the later one is among
    the first [n] only if the earlier one is. *)
Lemma firstn_before {A : Type} (x y : A) (l1 l2 l3 : list A) :
  forall n,
    NoDup (l1 ++ x :: l2 ++ y :: l3) ->
    In y (firstn n (l1 ++ x :: l2 ++ y :: l3)) ->
    In x (firstn n (l1 ++ x :: l2 ++ y :: l3)).
Proof.
  induction l1 as [|h t IH]; intros [|n] Hnd Hy; simpl in *;
    try contradiction.
  - now left.
  - apply NoDup_cons_iff in Hnd as [Hh Hnd].
    destruct Hy as [->|Hy].
    + elim Hh. apply in_or_app. right. right.
      apply in_or_app. right. now left.
    + right. now apply IH.
Qed.

Lemma Counter_NoDup (xs : list string) : NoDup (Counter xs).
Proof.
  apply (NoDup_map_inv fst).
  change (map fst (Counter xs)) with (keys (Counter xs)).
  rewrite Counter_keys. apply (unique_NoDup _ String.eqb_eq).
Qed.

(** X26: when the sort inside [value_counts] keeps equal counts in the
    order it found them in, ties for a place among the ten go to the
    organization seen first: if an organization is selected, so is every
    organization with as many rows that appears earlier in the data. *)
Theorem stable_sort_ties_by_first_seen (srt : sorter)
  (pairs : list (string * string)) :
  sorter_ok srt -> sorter_stable srt ->
  ties_by_first_seen (map fst pairs) (top_orgs_of srt pairs).
Proof.
  intros Hsrt Hst o o' Ho Hc Hb.
  unfold top_orgs_of, nlargest in *.
  set (orgs := map fst pairs) in *.
  set (S := srt (Counter orgs)) in *.
  destruct (Hsrt (Counter orgs)) as [Hp Hd]. fold S in Hp, Hd.
  unfold stable_sort_desc in *. rewrite (isort_descending S Hd) in *.
  apply in_map_iff in Ho as ([k n] & Hk & Hin). simpl in Hk. subst k.
  assert (HinS : In (o, n) S)
    by (rewrite <- (firstn_skipn 10 S); apply in_or_app; now left).
  assert (Hn : n = count_str o orgs).
  { apply (Permutation_in _ (Permutation_sym Hp)) in HinS.
    now apply Counter_In in HinS as [_ H]. }
  subst n.
  assert (HbC : before (o', count_str o orgs) (o, count_str o orgs)
                  (Counter orgs)).
  { rewrite Counter_first_seen. rewrite <- Hc at 1.
    exact (before_map (fun t => (t, count_str t orgs)) o' o _ Hb). }
  assert (HbS : before (o', count_str o orgs) (o, count_str o orgs) S).
  { apply (before_filter_inv (fun r => snd r =? count_str o orgs)).
    unfold S. rewrite Hst.
    apply before_filter; [apply Nat.eqb_refl|apply Nat.eqb_refl|exact HbC]. }
  destruct HbS as (l1 & l2 & l3 & HS).
  assert (HndS : NoDup S)
    by (apply (Permutation_NoDup Hp), Counter_NoDup).
  rewrite HS in Hin, HndS |- *.
  apply in_map_iff. exists (o', count_str o orgs). split; [reflexivity|].
  now apply firstn_before.
Qed.

Lemma stable_sort_desc_is_stable : sorter_stable stable_sort_desc.
Proof. intros c l. apply stable_sort_desc_stable. Qed.

Lemma stable_sort_ties_by_first_seen_witness :
  ties_by_first_seen (map fst (cleaned_pairs eighteen_orgs))
    (top_orgs_of stable_sort_desc (cleaned_pairs eighteen_orgs)).
Proof.
  exact (stable_sort_ties_by_first_seen stable_sort_desc
           (cleaned_pairs eighteen_orgs) stable_sort_desc_ok
           stable_sort_desc_is_stable).
Defined.
